(** * e_commerce_forecast: the feature pipeline's transform, validation and
    extraction stages

    A shallow embedding of [feature_pipeline/etl.py], [validation.py] and
    [pipeline.py].

    Conventions of the embedding:
    - a pandas DataFrame is the list of its rows, in row order;
    - a float64 cell is a number of a floating-point arithmetic
      ([Float.Arithmetic]: the operations the code uses, with a NaN). The
      definitions are written once, over any such arithmetic; [binary64] is the
      arithmetic of the code, IEEE 754 binary64 with round-to-nearest-even as the
      Rocq kernel computes it, overflow to infinity and NaN included; [exact]
      is the arithmetic of rational numbers with a NaN, without rounding or
      overflow. A property stated for every arithmetic holds of the code; the
      few properties that need sums without rounding are stated for [exact] and
      say so;
    - a sum ([groupby(...).sum()], [resample(...).sum()]) adds the values of a
      group in row order with Kahan's compensation, as pandas' groupby kernel
      does, starting from 0.0 and skipping NaN;
    - a timestamp is the number of minutes since 1970-01-01 00:00 (the source
      format ['%m/%d/%Y %H:%M'] has minute resolution);
    - the cells of InvoiceNo, InvoiceDate and Country are present in every raw
      record; a UnitPrice cell may be NaN;
    - the file system and the Kaggle download are an explicit state and an
      outcome given to the extraction; the upload to the feature store
      ([Load.to_feature_store]) and [pipeline.run] are calls to remote services
      and are left out. *)

From Stdlib Require Import ZArith QArith Qround List String Ascii Bool Lia.
From Stdlib Require Import Sorting.Sorted Sorting.Permutation Structures.OrderedTypeEx.
From Stdlib Require Import Floats.
Import ListNotations.

Open Scope Z_scope.

(** ** Errors *)

Inductive Exn :=
| ValueError
| OutOfBoundsDatetime
| AttributeError
| TypeError
| KeyError
| IntCastingNaNError
| EmptyDataError
| ParserError
| UnicodeDecodeError
| FileNotFoundError.

Inductive Result (A : Type) :=
| Ok (a : A)
| Raise (e : Exn).

Arguments Ok {A}.
Arguments Raise {A}.

Definition bind {A B} (r : Result A) (k : A -> Result B) : Result B :=
  match r with
  | Ok a => k a
  | Raise e => Raise e
  end.

Notation "x <- c ;; k" := (bind c (fun x => k))
  (at level 61, c at next level, right associativity).

Fixpoint mapM {A B} (f : A -> Result B) (l : list A) : Result (list B) :=
  match l with
  | [] => Ok []
  | a :: tl => b <- f a ;; bs <- mapM f tl ;; Ok (b :: bs)
  end.

(** ** Calendar *)

Definition Timestamp := Z.

Definition minutes_per_day : Z := 1440.

(** The calendar day a timestamp falls on, as a day number since 1970-01-01. *)
Definition floor_day (t : Timestamp) : Z := t / minutes_per_day.

(** Midnight of a day number, the label pandas gives a daily bin. *)
Definition day_start (d : Z) : Timestamp := d * minutes_per_day.

(** Day number of a proleptic Gregorian date. *)
Definition days_from_civil (y m d : Z) : Z :=
  let y' := if m <=? 2 then y - 1 else y in
  let era := y' / 400 in
  let yoe := y' - era * 400 in
  let mp := (m + 9) mod 12 in
  let doy := (153 * mp + 2) / 5 + d - 1 in
  let doe := yoe * 365 + yoe / 4 - yoe / 100 + doy in
  era * 146097 + doe - 719468.

Definition is_leap (y : Z) : bool :=
  ((y mod 4 =? 0) && negb (y mod 100 =? 0)) || (y mod 400 =? 0).

Definition days_in_month (y m : Z) : Z :=
  if m =? 2 then (if is_leap y then 29 else 28)
  else if (m =? 4) || (m =? 6) || (m =? 9) || (m =? 11) then 30
  else 31.

(** The timestamp of a date and a time of day. *)
Definition timestamp_of (y m d hh mm : Z) : Timestamp :=
  days_from_civil y m d * minutes_per_day + hh * 60 + mm.

(** The fields of an [InvoiceDate] cell written as [MM/DD/YYYY HH:MM], each
    the number its digits spell. *)
Record DateText := mkDateText {
  dt_month : Z; dt_day : Z; dt_year : Z; dt_hour : Z; dt_minute : Z }.

(** The text matches ['%m/%d/%Y %H:%M']: a year of four digits and a month,
    day, hour and minute that exist. *)
Definition well_formed (s : DateText) : bool :=
  (0 <=? dt_year s) && (dt_year s <=? 9999)
  && (1 <=? dt_month s) && (dt_month s <=? 12)
  && (1 <=? dt_day s) && (dt_day s <=? days_in_month (dt_year s) (dt_month s))
  && (0 <=? dt_hour s) && (dt_hour s <=? 23)
  && (0 <=? dt_minute s) && (dt_minute s <=? 59).

(** pandas stores a timestamp as a signed 64-bit count of nanoseconds since
    1970-01-01: the timestamps it can hold run from 1677-09-21 00:12:43.145224193
    to 2262-04-11 23:47:16.854775807. *)
Definition nanoseconds_per_minute : Z := 60000000000.
Definition int64_max : Z := 9223372036854775807.

Definition representable (t : Timestamp) : bool :=
  (- int64_max <=? t * nanoseconds_per_minute)
  && (t * nanoseconds_per_minute <=? int64_max).

(** [pd.to_datetime(..., format = '%m/%d/%Y %H:%M')] on one cell: the hour and
    the minute are kept; a text that does not match the format raises
    ValueError, a date that pandas cannot store raises OutOfBoundsDatetime. *)
Definition to_datetime (s : DateText) : Result Timestamp :=
  if well_formed s then
    let t := timestamp_of (dt_year s) (dt_month s) (dt_day s) (dt_hour s) (dt_minute s) in
    if representable t then Ok t else Raise OutOfBoundsDatetime
  else Raise ValueError.

(** ** float64 arithmetic *)

Module Float.

(** The operations of float64 the transform uses. [of_Z] is the conversion of
    an integer (a position, a count, the factor 3); [ltb], [leb] and [eqb] are
    [<], [<=] and [==], false as soon as one side is NaN; [floor] is the integer
    part, rounded down; [rint] is numpy's [round]: to the nearest integer, a tie
    going to the even one. *)
Record Arithmetic := mkArithmetic {
  num : Type;
  zero : num;
  nan : num;
  of_Z : Z -> num;
  add : num -> num -> num;
  sub : num -> num -> num;
  mul : num -> num -> num;
  div : num -> num -> num;
  ltb : num -> num -> bool;
  leb : num -> num -> bool;
  eqb : num -> num -> bool;
  isna : num -> bool;
  floor : num -> Z;
  rint : num -> num;
  isna_nan : isna nan = true;
  isna_zero : isna zero = false;
  rint_zero : rint zero = zero }.

End Float.

(** *** IEEE 754 binary64 *)

Module Binary64.

(** The conversion of an integer below 2^63 in absolute value. *)
Definition of_Z (z : Z) : float :=
  if z <? 0 then PrimFloat.opp (PrimFloat.of_uint63 (Uint63.of_Z (- z)))
  else PrimFloat.of_uint63 (Uint63.of_Z z).

(** The integer part of a finite number, rounded down. *)
Definition floor (x : float) : Z :=
  match Prim2SF x with
  | S754_finite s m e => Z.shiftl (if s then Z.neg m else Z.pos m) e
  | _ => 0
  end.

(** Rounding to the nearest integer, ties to even: below 2^52 in absolute
    value, adding and subtracting 2^52 rounds the fraction away in the
    rounding mode of the arithmetic; from 2^52 on every number is an integer.
    Infinities and NaN are returned as they are. *)
Definition rint (x : float) : float :=
  if PrimFloat.ltb (PrimFloat.abs x) 0x1p52%float then
    let r := PrimFloat.sub (PrimFloat.add (PrimFloat.abs x) 0x1p52%float) 0x1p52%float in
    if PrimFloat.get_sign x then PrimFloat.opp r else r
  else x.

End Binary64.

Definition binary64 : Float.Arithmetic :=
  Float.mkArithmetic float PrimFloat.zero PrimFloat.nan Binary64.of_Z
    PrimFloat.add PrimFloat.sub PrimFloat.mul PrimFloat.div
    PrimFloat.ltb PrimFloat.leb PrimFloat.eqb PrimFloat.is_nan
    Binary64.floor Binary64.rint eq_refl eq_refl eq_refl.

(** *** Rational numbers with a NaN *)

Module Exact.

Definition t := option Q.

Definition lift2 (f : Q -> Q -> Q) (a b : t) : t :=
  match a, b with
  | Some x, Some y => Some (f x y)
  | _, _ => None
  end.

Definition test2 (f : Q -> Q -> bool) (a b : t) : bool :=
  match a, b with
  | Some x, Some y => f x y
  | _, _ => false
  end.

Definition isna (a : t) : bool :=
  match a with None => true | Some _ => false end.

Definition floor (a : t) : Z :=
  match a with Some q => Qfloor q | None => 0 end.

Definition round_half_even (q : Q) : Z :=
  let f := Qfloor q in
  let d := (q - inject_Z f)%Q in
  match Qcompare d (1 # 2)%Q with
  | Lt => f
  | Gt => f + 1
  | Eq => if Z.even f then f else f + 1
  end.

Definition rint (a : t) : t :=
  match a with
  | Some q => Some (inject_Z (round_half_even q))
  | None => None
  end.

(** Two cells hold the same number, or are both NaN. *)
Definition same (a b : t) : Prop :=
  match a, b with
  | Some x, Some y => (x == y)%Q
  | None, None => True
  | _, _ => False
  end.

(** The number a cell adds to a sum: its value, nothing when it is NaN. *)
Definition value (a : t) : Q :=
  match a with Some q => q | None => 0%Q end.

(** The numbers of a column added up, NaN skipped. *)
Definition total (l : list t) : Q :=
  fold_right (fun a s => (value a + s)%Q) 0%Q l.

End Exact.

Definition exact : Float.Arithmetic :=
  Float.mkArithmetic Exact.t (Some 0%Q) None (fun z => Some (inject_Z z))
    (Exact.lift2 Qplus) (Exact.lift2 Qminus) (Exact.lift2 Qmult) (Exact.lift2 Qdiv)
    (Exact.test2 (fun x y => negb (Qle_bool y x))) (Exact.test2 Qle_bool)
    (Exact.test2 Qeq_bool) Exact.isna Exact.floor Exact.rint
    eq_refl eq_refl eq_refl.

(** ** Rows *)

(** A raw record of the downloaded CSV file; [P] is the type of a float64
    cell. *)
Record RawRecord (P : Type) := mkRawRecord {
  InvoiceNo : string;
  StockCode : string;
  Description : string;
  Quantity : Z;
  InvoiceDate : DateText;
  UnitPrice : P;
  CustomerID : string;
  Country : string }.

Arguments mkRawRecord {P}.
Arguments InvoiceNo {P}.
Arguments StockCode {P}.
Arguments Description {P}.
Arguments Quantity {P}.
Arguments InvoiceDate {P}.
Arguments UnitPrice {P}.
Arguments CustomerID {P}.
Arguments Country {P}.

(** A row of [Transform.data]; [D] is the type of the [invoice_date] column and
    [C] the type of the [country] column, which the casts change. *)
Record Row (D C P : Type) := mkRow {
  invoice_id : string;
  invoice_date : D;
  total_price : P;
  country : C }.

Arguments mkRow {D C P}.
Arguments invoice_id {D C P}.
Arguments invoice_date {D C P}.
Arguments total_price {D C P}.
Arguments country {D C P}.

(** A row of the aggregated table, columns in the order [aggregate_data]
    leaves them. *)
Record AggRow (P : Type) := mkAggRow {
  agg_invoice_date : Timestamp;
  agg_total_price : P;
  agg_country : Z;
  agg_id : Z }.

Arguments mkAggRow {P}.
Arguments agg_invoice_date {P}.
Arguments agg_total_price {P}.
Arguments agg_country {P}.
Arguments agg_id {P}.

(** ** Transform: renaming, casting, the Country Partitioner *)

(** [Series.isin(country_list)] on one cell. *)
Definition isin (country_list : list string) (c : string) : bool :=
  existsb (String.eqb c) country_list.

(** [Series.unique()]: the distinct values in order of first appearance. *)
Fixpoint unique_from (seen : list string) (l : list string) : list string :=
  match l with
  | [] => []
  | x :: tl =>
      if existsb (String.eqb x) seen then unique_from seen tl
      else x :: unique_from (x :: seen) tl
  end.

Definition unique (l : list string) : list string := unique_from [] l.

(** [{v: i for i, v in enumerate(...)}] as an association list. *)
Fixpoint enumerate_from (i : Z) (l : list string) : list (string * Z) :=
  match l with
  | [] => []
  | v :: tl => (v, i) :: enumerate_from (i + 1) tl
  end.

(** [dict.get(k)]: the value of the key, None when the key is absent. *)
Fixpoint dict_get (d : list (string * Z)) (k : string) : option Z :=
  match d with
  | [] => None
  | (k', v) :: tl => if String.eqb k' k then Some v else dict_get tl k
  end.

(** [astype("int8")] on an integer: the low 8 bits, read as a signed number. *)
Definition to_int8 (z : Z) : Z := (z + 128) mod 256 - 128.

Section Columns.

Context {P : Type}.

(** [rename_columns]: StockCode, Description, CustomerID and Quantity are
    dropped, the other four columns renamed. *)
Definition rename_columns (df : list (RawRecord P)) : list (Row DateText string P) :=
  map (fun r => mkRow (InvoiceNo r) (InvoiceDate r) (UnitPrice r) (Country r)) df.

(** [cast_columns]: the [invoice_date] column becomes a timestamp. *)
Definition cast_columns (data : list (Row DateText string P))
  : Result (list (Row Timestamp string P)) :=
  mapM (fun r =>
          t <- to_datetime (invoice_date r) ;;
          Ok (mkRow (invoice_id r) t (total_price r) (country r))) data.

(** The state of a [Transform] object after [filter_countries]. *)
Record Filtered := mkFiltered {
  f_data : list (Row Timestamp string P);
  country_mappings : list (string * Z) }.

Definition filter_countries (data : list (Row Timestamp string P))
                            (country_list : list string) : Filtered :=
  let data' := filter (fun r => isin country_list (country r)) data in
  mkFiltered data' (enumerate_from 0 (unique (map country data'))).

(** The name of the row is a key of the mapping. *)
Definition has_code (s : Filtered) (r : Row Timestamp string P) : bool :=
  match dict_get (country_mappings s) (country r) with
  | Some _ => true
  | None => false
  end.

(** [encode_country_column]: each name is looked up in the mapping, then the
    column is cast to int8. A name that is not in the mapping gives None: when
    other names are, the column holds numbers and NaN and the cast raises
    IntCastingNaNError; when none is, the column holds None alone and the cast
    raises TypeError. *)
Definition encode_country_column (s : Filtered) : Result (list (Row Timestamp Z P)) :=
  match mapM (fun r =>
                match dict_get (country_mappings s) (country r) with
                | Some code => Ok (mkRow (invoice_id r) (invoice_date r) (total_price r)
                                         (to_int8 code))
                | None => Raise IntCastingNaNError
                end) (f_data s) with
  | Ok rows => Ok rows
  | Raise _ =>
      if existsb (has_code s) (f_data s) then Raise IntCastingNaNError
      else Raise TypeError
  end.

End Columns.

Arguments Filtered P : clear implicits.

(** The key of the first grouping: (invoice_date, invoice_id, country),
    compared column by column. *)
Definition Key3 : Type := Timestamp * string * Z.

Definition key3_compare (a b : Key3) : comparison :=
  let '(d1, i1, c1) := a in
  let '(d2, i2, c2) := b in
  match Z.compare d1 d2 with
  | Eq => match String.compare i1 i2 with
          | Eq => Z.compare c1 c2
          | o => o
          end
  | o => o
  end.

Definition key3 {P} (r : Row Timestamp Z P) : Key3 :=
  (invoice_date r, invoice_id r, country r).

Definition key3_date (k : Key3) : Timestamp := fst (fst k).
Definition key3_country (k : Key3) : Z := snd k.

Definition zrange (first : Z) (len : nat) : list Z :=
  map (fun i => first + Z.of_nat i) (seq 0 len).

(** ** Grouping rows by key *)

Section GroupBy.

Context {K V : Type}.
Variable cmp : K -> K -> comparison.

(** One more row goes into the group of its key, after the rows already
    there; a new group is put at its place in key order (groupby sorts the
    group keys). *)
Fixpoint insert_row (k : K) (v : V) (groups : list (K * list V)) : list (K * list V) :=
  match groups with
  | [] => [(k, [v])]
  | (k', vs) :: tl =>
      match cmp k k' with
      | Lt => (k, [v]) :: groups
      | Eq => (k', vs ++ [v]) :: tl
      | Gt => (k', vs) :: insert_row k v tl
      end
  end.

(** The groups of a table: for each key, in key order, the values of the rows
    of that key, in row order. *)
Definition group_rows (rows : list (K * V)) : list (K * list V) :=
  fold_left (fun groups r => insert_row (fst r) (snd r) groups) rows [].

End GroupBy.

(** ** The Daily Aggregator and the Outlier Filter, over an arithmetic *)

Section Aggregator.

Variable F : Float.Arithmetic.

Local Abbreviation num := (Float.num F).

(** *** Sums *)

(** One more value goes into a sum, as the [sum] of pandas' groupby does it:
    Kahan's compensated summation. The state is the sum so far and the
    compensation, the part of the last additions that rounding lost; NaN is
    skipped, and a compensation that became NaN (an infinite value came in) is
    reset to 0.0. *)
Definition accumulate (acc : num * num) (v : num) : num * num :=
  if Float.isna F v then acc
  else
    let y := Float.sub F v (snd acc) in
    let t := Float.add F (fst acc) y in
    let compensation := Float.sub F (Float.sub F t (fst acc)) y in
    (t, if Float.isna F compensation then Float.zero F else compensation).

(** The sum of a column, in row order; 0.0 when there is nothing to add. *)
Definition sum_values (l : list num) : num :=
  fst (fold_left accumulate l (Float.zero F, Float.zero F)).

(** *** groupby(...).agg({'total_price': 'sum'}).reset_index() *)

(** The sum of the values of each group, the groups in key order. *)
Definition groupby_sum {K : Type} (cmp : K -> K -> comparison) (rows : list (K * num))
  : list (K * num) :=
  map (fun g => (fst g, sum_values (snd g))) (group_rows cmp rows).

(** *** The Outlier Filter *)

Fixpoint insert_sorted (x : num) (l : list num) : list num :=
  match l with
  | [] => [x]
  | y :: tl => if Float.ltb F y x then y :: insert_sorted x tl else x :: l
  end.

Definition sort_values (l : list num) : list num := fold_right insert_sorted [] l.

(** numpy's linear interpolation between two neighbours [a] and [b] at the
    fraction [t]. *)
Definition lerp (a b t : num) : num :=
  let diff_b_a := Float.sub F b a in
  if Float.leb F (Float.div F (Float.of_Z F 1) (Float.of_Z F 2)) t
  then Float.sub F b (Float.mul F diff_b_a (Float.sub F (Float.of_Z F 1) t))
  else Float.add F a (Float.mul F diff_b_a t).

(** [Series.quantile(q)] with the default linear interpolation: NaN is left
    out; on the sorted values, the value at the fractional position
    [(n - 1) * q], interpolated between its two neighbours; NaN when no value
    is left. *)
Definition quantile (q : num) (col : list num) : num :=
  match filter (fun v => negb (Float.isna F v)) col with
  | [] => Float.nan F
  | values =>
      let sorted := sort_values values in
      let n := Z.of_nat (List.length values) in
      let virtual_index := Float.mul F (Float.of_Z F (n - 1)) q in
      let previous_index := Float.floor F virtual_index in
      let next_index := Z.min (previous_index + 1) (n - 1) in
      let gamma := Float.sub F virtual_index (Float.of_Z F previous_index) in
      lerp (nth (Z.to_nat previous_index) sorted (Float.nan F))
           (nth (Z.to_nat next_index) sorted (Float.nan F))
           gamma
  end.

(** The literals [0.25] and [0.75]. *)
Definition quarter : num := Float.div F (Float.of_Z F 1) (Float.of_Z F 4).
Definition three_quarters : num := Float.div F (Float.of_Z F 3) (Float.of_Z F 4).

(** [DataFrame.dropna]: the rows whose cells are all present. *)
Definition dropna {K : Type} (rows : list (K * num)) : list (K * num) :=
  filter (fun r => negb (Float.isna F (snd r))) rows.

Definition iqr_outlier_removal {K : Type} (agg_data : list (K * num)) : list (K * num) :=
  let col := map snd agg_data in
  (* Calculate IQR *)
  let q1 := quantile quarter col in
  let q3 := quantile three_quarters col in
  let iqr := Float.sub F q3 q1 in
  (* Define lower and upper bound *)
  let lower_bound := Float.sub F q1 (Float.mul F (Float.of_Z F 3) iqr) in
  let upper_bound := Float.add F q3 (Float.mul F (Float.of_Z F 3) iqr) in
  (* Identify outliers and mark as NaN *)
  let marked :=
    map (fun r : K * num =>
           if Float.ltb F (snd r) lower_bound || Float.ltb F upper_bound (snd r)
           then (fst r, Float.nan F)
           else r) agg_data in
  (* Drop null values *)
  dropna marked.

(** *** Daily resampling *)

(** The total of one daily bin: the sum of the rows whose timestamp falls on
    the day. The sum of no row is 0.0, not NaN. *)
Definition bin_sum (rows : list (Timestamp * num)) (d : Z) : num :=
  sum_values (map snd (filter (fun r => floor_day (fst r) =? d) rows)).

(** [resample('D', on = 'invoice_date').sum()]: one bin for every calendar day
    from the day of the earliest timestamp to the day of the latest one, each
    labelled by its midnight. On a frame without rows the call raises
    AttributeError. *)
Definition resample_sum (rows : list (Timestamp * num))
  : Result (list (Timestamp * num)) :=
  match rows with
  | [] => Raise AttributeError
  | r :: tl =>
      let days := map (fun x => floor_day (fst x)) tl in
      let first := fold_left Z.min days (floor_day (fst r)) in
      let last := fold_left Z.max days (floor_day (fst r)) in
      Ok (map (fun d => (day_start d, bin_sum rows d))
              (zrange first (Z.to_nat (last - first + 1))))
  end.

(** numpy's [interp] at the position [x] between the known values [a] at
    position [x0] and [b] at position [x1]. *)
Definition interp (x0 : Z) (a : num) (x1 : Z) (b : num) (x : Z) : num :=
  let slope := Float.div F (Float.sub F b a)
                         (Float.sub F (Float.of_Z F x1) (Float.of_Z F x0)) in
  let res := Float.add F (Float.mul F slope (Float.sub F (Float.of_Z F x) (Float.of_Z F x0))) a in
  if Float.isna F res then
    let res' :=
      Float.add F (Float.mul F slope (Float.sub F (Float.of_Z F x) (Float.of_Z F x1))) b in
    if Float.isna F res' && Float.eqb F a b then a else res'
  else res.

(** [interpolate()] on one column, with its defaults (linear, forward): a run
    of NaN between two known values is filled linearly, a run after the last
    known value takes that value, a run before the first known value stays
    NaN. [prev] is the last known value with its position, [i] the position of
    the next cell and [pending] the length of the run of NaN read since. *)
Fixpoint interpolate_from (prev : option (Z * num)) (i : Z) (pending : nat)
                          (col : list num) : list num :=
  match col with
  | [] =>
      repeat (match prev with Some (_, a) => a | None => Float.nan F end) pending
  | v :: tl =>
      if Float.isna F v then interpolate_from prev (i + 1) (S pending) tl
      else
        match prev with
        | Some (x0, a) => map (interp x0 a i v) (zrange (x0 + 1) pending)
        | None => repeat (Float.nan F) pending
        end ++ v :: interpolate_from (Some (i, v)) (i + 1) 0 tl
  end.

Definition interpolate (col : list num) : list num :=
  interpolate_from None 0 0 col.

(** *** aggregate_data *)

(** The first grouping of [aggregate_data]. *)
Definition agg_by_invoice (data : list (Row Timestamp Z num)) : list (Key3 * num) :=
  groupby_sum key3_compare (map (fun r => (key3 r, total_price r)) data).

(** [agg_data_1]: the rows of one country, grouped again by [invoice_date]. *)
Definition agg_by_date (agg_data : list (Key3 * num)) (c : Z) : list (Timestamp * num) :=
  groupby_sum Z.compare
    (map (fun r => (key3_date (fst r), snd r))
         (filter (fun r => key3_country (fst r) =? c) agg_data)).

(** The body of the loop of [aggregate_data] for one country code, up to
    [reset_index]. *)
Definition aggregate_country (agg_data : list (Key3 * num)) (c : Z)
  : Result (list (Timestamp * num)) :=
  let agg_data_1 := agg_by_date agg_data c in
  let agg_data_non_outliers := iqr_outlier_removal agg_data_1 in
  resampled <- resample_sum agg_data_non_outliers ;;
  let interpolated := combine (map fst resampled) (interpolate (map snd resampled)) in
  Ok (map (fun r => (fst r, Float.rint F (snd r))) interpolated).

(** A table before the [id] column is added. *)
Definition add_country (c : Z) (rows : list (Timestamp * num))
  : list (Timestamp * num * Z) :=
  map (fun r => (fst r, snd r, c)) rows.

Fixpoint add_id_from (i : Z) (rows : list (Timestamp * num * Z)) : list (AggRow num) :=
  match rows with
  | [] => []
  | (d, p, c) :: tl => mkAggRow d p c i :: add_id_from (i + 1) tl
  end.

(** The loop of [aggregate_data] over the country codes still to do;
    [all_agg_data] is the table concatenated so far. *)
Fixpoint concat_countries (agg_data : list (Key3 * num)) (codes : list Z)
                          (all_agg_data : list (Timestamp * num * Z))
  : Result (list (Timestamp * num * Z)) :=
  match codes with
  | [] => Ok all_agg_data
  | c :: tl =>
      rows <- aggregate_country agg_data c ;;
      concat_countries agg_data tl (all_agg_data ++ add_country c rows)
  end.

Definition aggregate_data (data : list (Row Timestamp Z num)) : Result (list (AggRow num)) :=
  let agg_data := agg_by_invoice data in
  all_agg_data <- concat_countries agg_data [0; 1; 2] [] ;;
  Ok (add_id_from 0 all_agg_data).

(** [pipeline.transform]. *)
Definition transform (df : list (RawRecord num)) : Result (list (AggRow num)) :=
  data <- cast_columns (rename_columns df) ;;
  data <- encode_country_column
            (filter_countries data ["United Kingdom"; "France"; "Germany"]%string) ;;
  aggregate_data data.

End Aggregator.
(** * The Schema Validator ([validation.py]) *)

Module Validation.

Local Open Scope string_scope.

(** The values the keyword arguments of the suite take. *)
Inductive Value :=
| VInt (z : Z)
| VBool (b : bool)
| VStr (s : string)
| VStrList (l : list string)
| VIntTuple (l : list Z).

Record ExpectationConfiguration := mkExpectation {
  expectation_type : string;
  kwargs : list (string * Value) }.

Record ExpectationSuite := mkSuite {
  expectation_suite_name : string;
  expectations : list ExpectationConfiguration }.

Fixpoint kwarg (kw : list (string * Value)) (name : string) : option Value :=
  match kw with
  | [] => None
  | (k, v) :: tl => if String.eqb k name then Some v else kwarg tl name
  end.

Definition value_eqb (a b : option Value) : bool :=
  match a, b with
  | None, None => true
  | Some (VStr x), Some (VStr y) => String.eqb x y
  | _, _ => false
  end.

(** Two configurations have the same domain when they are of the same
    expectation type and name the same column (or both name none). *)
Definition same_domain (a b : ExpectationConfiguration) : bool :=
  String.eqb (expectation_type a) (expectation_type b)
  && value_eqb (kwarg (kwargs a) "column") (kwarg (kwargs b) "column").

Fixpoint replace_or_append (e : ExpectationConfiguration)
  (l : list ExpectationConfiguration) : list ExpectationConfiguration :=
  match l with
  | [] => [e]
  | e' :: tl => if same_domain e' e then e :: tl else e' :: replace_or_append e tl
  end.

(** [ExpectationSuite.add_expectation]: a configuration of a domain the suite
    already has replaces the one there, any other is appended. *)
Definition add_expectation (suite : ExpectationSuite) (e : ExpectationConfiguration)
  : ExpectationSuite :=
  mkSuite (expectation_suite_name suite) (replace_or_append e (expectations suite)).

Definition build_expectation_suite : ExpectationSuite :=
  let suite := mkSuite "ecommerce_consumption_suite" [] in
  (* Columns. *)
  let suite := add_expectation suite
    (mkExpectation "expect_table_columns_to_match_ordered_list"
       [("column_list", VStrList ["id"; "invoice_date"; "country"; "total_price"])]) in
  let suite := add_expectation suite
    (mkExpectation "expect_table_column_count_to_equal" [("value", VInt 4)]) in
  (* Datetime UTC *)
  let suite := add_expectation suite
    (mkExpectation "expect_column_values_to_not_be_null"
       [("column", VStr "invoice_date")]) in
  (* Area *)
  let suite := add_expectation suite
    (mkExpectation "expect_column_distinct_values_to_be_in_set"
       [("column", VStr "country"); ("value_set", VIntTuple [0; 1; 2])]) in
  let suite := add_expectation suite
    (mkExpectation "expect_column_values_to_be_of_type"
       [("column", VStr "country"); ("type_", VStr "int8")]) in
  (* Energy consumption *)
  let suite := add_expectation suite
    (mkExpectation "expect_column_min_to_be_between"
       [("column", VStr "total_price"); ("min_value", VInt 0);
        ("strict_min", VBool false)]) in
  let suite := add_expectation suite
    (mkExpectation "expect_column_values_to_be_of_type"
       [("column", VStr "total_price"); ("type_", VStr "float64")]) in
  let suite := add_expectation suite
    (mkExpectation "expect_column_values_to_not_be_null"
       [("column", VStr "total_price")]) in
  suite.

(** ** What a configuration requires of a table *)

(** [MinimumBetween column min strict_min max strict_max]: the least value of
    the column is at least [min] (above it when [strict_min]) and at most [max]
    (below it when [strict_max]); an absent bound requires nothing. *)
Inductive Rule :=
| ColumnsInOrder (names : list string)
| ColumnCount (n : Z)
| NoMissing (column : string)
| DistinctValuesWithin (column : string) (allowed : list Z)
| StoredAs (column : string) (dtype : string)
| MinimumBetween (column : string) (min_value : option Z) (strict_min : bool)
                 (max_value : option Z) (strict_max : bool).

Definition kw_str (kw : list (string * Value)) (name : string) : option string :=
  match kwarg kw name with Some (VStr s) => Some s | _ => None end.

Definition kw_int (kw : list (string * Value)) (name : string) : option Z :=
  match kwarg kw name with Some (VInt z) => Some z | _ => None end.

(** A boolean keyword argument, [false] when it is not given. *)
Definition kw_flag (kw : list (string * Value)) (name : string) : bool :=
  match kwarg kw name with Some (VBool b) => b | _ => false end.

(** The rule a configuration states, by its expectation type and keyword
    arguments; [None] for a type the suite does not use or a missing argument. *)
Definition rule_of (e : ExpectationConfiguration) : option Rule :=
  let kw := kwargs e in
  let ty := expectation_type e in
  if String.eqb ty "expect_table_columns_to_match_ordered_list" then
    match kwarg kw "column_list" with
    | Some (VStrList l) => Some (ColumnsInOrder l)
    | _ => None
    end
  else if String.eqb ty "expect_table_column_count_to_equal" then
    option_map ColumnCount (kw_int kw "value")
  else if String.eqb ty "expect_column_values_to_not_be_null" then
    option_map NoMissing (kw_str kw "column")
  else if String.eqb ty "expect_column_distinct_values_to_be_in_set" then
    match kw_str kw "column", kwarg kw "value_set" with
    | Some c, Some (VIntTuple l) => Some (DistinctValuesWithin c l)
    | _, _ => None
    end
  else if String.eqb ty "expect_column_values_to_be_of_type" then
    match kw_str kw "column", kw_str kw "type_" with
    | Some c, Some t => Some (StoredAs c t)
    | _, _ => None
    end
  else if String.eqb ty "expect_column_min_to_be_between" then
    match kw_str kw "column" with
    | Some c => Some (MinimumBetween c (kw_int kw "min_value") (kw_flag kw "strict_min")
                                     (kw_int kw "max_value") (kw_flag kw "strict_max"))
    | None => None
    end
  else None.

(** A candidate table: its columns in order, each with its name, its stored
    type and its cells ([None] is a missing cell). *)
Record Column := mkColumn {
  col_name : string;
  col_dtype : string;
  col_cells : list (option Q) }.

Definition Table := list Column.

Definition column (t : Table) (name : string) : option Column :=
  find (fun c => String.eqb (col_name c) name) t.

Definition present_values (c : Column) : list Q :=
  flat_map (fun x => match x with Some v => [v] | None => [] end) (col_cells c).

Definition is_min (l : list Q) (m : Q) : Prop :=
  In m l /\ forall v, In v l -> (m <= v)%Q.

Definition above (bound : option Z) (strict : bool) (m : Q) : Prop :=
  match bound with
  | None => True
  | Some b => if strict then (inject_Z b < m)%Q else (inject_Z b <= m)%Q
  end.

Definition below (bound : option Z) (strict : bool) (m : Q) : Prop :=
  match bound with
  | None => True
  | Some b => if strict then (m < inject_Z b)%Q else (m <= inject_Z b)%Q
  end.

Definition satisfies (t : Table) (r : Rule) : Prop :=
  match r with
  | ColumnsInOrder names => map col_name t = names
  | ColumnCount n => Z.of_nat (List.length t) = n
  | NoMissing c =>
      exists col, column t c = Some col /\ Forall (fun x => x <> None) (col_cells col)
  | DistinctValuesWithin c allowed =>
      exists col, column t c = Some col
                  /\ forall v, In v (present_values col) ->
                               exists z, In z allowed /\ (v == inject_Z z)%Q
  | StoredAs c ty => exists col, column t c = Some col /\ col_dtype col = ty
  | MinimumBetween c lo strict_lo hi strict_hi =>
      exists col m, column t c = Some col /\ is_min (present_values col) m
                    /\ above lo strict_lo m /\ below hi strict_hi m
  end.

(** A table passes a suite when it satisfies the rule of every expectation. *)
Definition passes (t : Table) (suite : ExpectationSuite) : Prop :=
  Forall (fun e => exists r, rule_of e = Some r /\ satisfies t r) (expectations suite).

(** The contract of a Daily Aggregate Row table, rule by rule as the
    specification lists them. *)
Definition declared_contract : list Rule :=
  [ ColumnCount 4;
    ColumnsInOrder ["id"; "invoice_date"; "country"; "total_price"];
    NoMissing "invoice_date";
    DistinctValuesWithin "country" [0; 1; 2];
    StoredAs "country" "int8";
    NoMissing "total_price";
    StoredAs "total_price" "float64";
    MinimumBetween "total_price" (Some 0) false None false ]%string.

(** The contract in plain terms: the table is made of the four columns id,
    invoice_date, country and total_price, in this order; invoice_date has no
    missing value; the values of country are among 0, 1 and 2 and stored as
    int8; total_price has no missing value, is stored as float64, and its least
    value is 0 or more. *)
Definition contract_holds (t : Table) : Prop :=
  exists c_id c_date c_country c_price,
    t = [c_id; c_date; c_country; c_price]
    /\ col_name c_id = "id" /\ col_name c_date = "invoice_date"
    /\ col_name c_country = "country" /\ col_name c_price = "total_price"
    /\ Forall (fun x => x <> None) (col_cells c_date)
    /\ (forall v, In v (present_values c_country) ->
                  exists z, In z [0; 1; 2] /\ (v == inject_Z z)%Q)
    /\ col_dtype c_country = "int8"
    /\ Forall (fun x => x <> None) (col_cells c_price)
    /\ col_dtype c_price = "float64"
    /\ exists m, is_min (present_values c_price) m /\ (0 <= m)%Q.

End Validation.

(** * Extraction ([Extract] in [etl.py]) *)

Module Extract.

Local Open Scope string_scope.

(** The content of the cached file [data.csv], by what [pd.read_csv] makes of
    it: bytes that the ['unicode_escape'] codec cannot decode, lines that the
    tokenizer rejects (a row with more fields than the others), or the non-blank
    lines of the file, each split in fields, the first one being the header. *)
Inductive CsvFile :=
| Undecodable
| Malformed
| Lines (lines : list (list string)).

Record DataFrame := mkDataFrame {
  columns : list string;
  records : list (list string) }.

(** What a run does to the outside, in order. *)
Inductive Event :=
| LogInfo
| LogError
| Download
| ReadCsv
| Unlink.

(** The cache file ([None] when it does not exist) and the events so far. *)
Record World := mkWorld {
  cache_file : option CsvFile;
  trace : list Event }.

(** What running the Kaggle command does: it raises, or it returns and leaves
    the cache file in some state. *)
Inductive DownloadOutcome :=
| DownloadRaises
| DownloadLeaves (file : option CsvFile).

(** [pd.read_csv(file_path, encoding='unicode_escape')]: a file that does not
    exist raises FileNotFoundError, one that cannot be decoded
    UnicodeDecodeError, one that cannot be tokenized ParserError, one without
    any line to parse EmptyDataError; a file with a header line gives a table,
    of zero rows when the header is all there is. *)
Definition read_csv (file : option CsvFile) : Result DataFrame :=
  match file with
  | None => Raise FileNotFoundError
  | Some Undecodable => Raise UnicodeDecodeError
  | Some Malformed => Raise ParserError
  | Some (Lines []) => Raise EmptyDataError
  | Some (Lines (header :: rows)) => Ok (mkDataFrame header rows)
  end.

Definition emit (e : Event) (w : World) : World :=
  mkWorld (cache_file w) (trace w ++ [e]).

(** [file_path.unlink(missing_ok=True)]. *)
Definition unlink (w : World) : World :=
  mkWorld None (trace w ++ [Unlink]).

Section Run.

Variable kaggle : DownloadOutcome.

(** The [try] around [pd.read_csv]: EmptyDataError alone is caught. *)
Definition try_read_csv (w : World) : Result (option DataFrame) * World :=
  let w := emit ReadCsv w in
  match read_csv (cache_file w) with
  | Ok data => (Ok (Some data), w)
  | Raise EmptyDataError => (Raise ValueError, unlink w)
  | Raise e => (Raise e, w)
  end.

Definition _extract_records_from_file (w : World) : Result (option DataFrame) * World :=
  match cache_file w with
  | None =>
      let w := emit LogInfo w in
      let w := emit Download w in
      match kaggle with
      | DownloadRaises => (Ok None, emit LogError w)
      | DownloadLeaves file => try_read_csv (emit LogInfo (mkWorld file (trace w)))
      end
  | Some _ => try_read_csv (emit LogInfo w)
  end.

Fixpoint index_of (name : string) (l : list string) : option nat :=
  match l with
  | [] => None
  | x :: tl => if String.eqb x name then Some O
               else option_map S (index_of name tl)
  end.

(** [records["InvoiceDate"]]. *)
Definition column_values (df : DataFrame) (name : string) : Result (list string) :=
  match index_of name (columns df) with
  | Some i => Ok (map (fun r => nth i r EmptyString) (records df))
  | None => Raise KeyError
  end.

Record Metadata := mkMetadata {
  data_path : string;
  num_unique_samples_per_time_series : nat }.

Definition from_file (path : string) (w : World)
  : Result (DataFrame * Metadata) * World :=
  match _extract_records_from_file w with
  | (Ok (Some df), w') =>
      (dates <- column_values df "InvoiceDate" ;;
       Ok (df, mkMetadata path (List.length (unique dates))), w')
  | (Ok None, w') => (Raise TypeError, w')
  | (Raise e, w') => (Raise e, w')
  end.

End Run.

(** The header line of the dataset. *)
Definition header : list string :=
  ["InvoiceNo"; "StockCode"; "Description"; "Quantity"; "InvoiceDate"; "UnitPrice";
   "CustomerID"; "Country"].

End Extract.
(** * The vocabulary of the properties *)

(** ** Groups *)

Section GroupByVocabulary.

Context {K V : Type}.
Variable cmp : K -> K -> comparison.
Variable P : K -> bool.

(** Every key of [groups] is above [k]. *)
Definition above (k : K) (groups : list (K * V)) : Prop :=
  Forall (fun e => cmp k (fst e) = Lt) groups.

(** Keys strictly ascending. *)
Inductive ascending : list (K * V) -> Prop :=
| asc_nil : ascending []
| asc_cons k v tl : above k tl -> ascending tl -> ascending ((k, v) :: tl).

(** The groups whose key is selected. *)
Definition select (l : list (K * V)) : list (K * V) :=
  filter (fun e => P (fst e)) l.

(** The rows of the key [k]. *)
Definition same_key (k : K) (l : list (K * V)) : list (K * V) :=
  filter (fun e => match cmp (fst e) k with Eq => true | _ => false end) l.

End GroupByVocabulary.

(** ** The tables of the Daily Aggregator *)

(** The days of the bins: from the day of the earliest row to the day of the
    latest one. *)
Definition bin_days {V} (rows : list (Timestamp * V)) : list Z :=
  match rows with
  | [] => []
  | r :: tl =>
      let days := map (fun x => floor_day (fst x)) tl in
      let first := fold_left Z.min days (floor_day (fst r)) in
      let last := fold_left Z.max days (floor_day (fst r)) in
      zrange first (Z.to_nat (last - first + 1))
  end.

(** The (country, invoice_date) pair of a row of the aggregated table. *)
Definition out_key {V} (r : AggRow V) : Z * Timestamp :=
  (agg_country r, agg_invoice_date r).

(** The codes [aggregate_data] loops over. *)
Definition is_code (c : Z) : bool := existsb (Z.eqb c) [0; 1; 2].

(** The order of the rows of the aggregated table: by country, then by date. *)
Definition key_before (a b : Z * Timestamp) : Prop :=
  fst a < fst b \/ (fst a = fst b /\ snd a < snd b).

Section AggregatorVocabulary.

Variable F : Float.Arithmetic.

Local Abbreviation num := (Float.num F).

(** The bounds of the interquartile-range rule, as the specification words
    them: [Q1 - 3 * IQR] and [Q3 + 3 * IQR] with [IQR = Q3 - Q1], from the 0.25
    and 0.75 quantiles of the whole series, each operation being one of the
    arithmetic. *)
Definition iqr_bounds (col : list num) : num * num :=
  let q1 := quantile F (quarter F) col in
  let q3 := quantile F (three_quarters F) col in
  let iqr := Float.sub F q3 q1 in
  (Float.sub F q1 (Float.mul F (Float.of_Z F 3) iqr),
   Float.add F q3 (Float.mul F (Float.of_Z F 3) iqr)).

(** A value is outside the bounds when it is below the lower one or above the
    upper one. *)
Definition outside (bounds : num * num) (v : num) : bool :=
  Float.ltb F v (fst bounds) || Float.ltb F (snd bounds) v.

(** The rows handed to the two groupings. *)
Definition key_price (r : Row Timestamp Z num) : Key3 * num := (key3 r, total_price r).
Definition date_price (r : Key3 * num) : Timestamp * num := (key3_date (fst r), snd r).

(** The series of a country that the Outlier Filter is given, and the values
    it keeps. *)
Definition series (data : list (Row Timestamp Z num)) (c : Z) : list (Timestamp * num) :=
  agg_by_date F (agg_by_invoice F data) c.

Definition kept (data : list (Row Timestamp Z num)) (c : Z) : list (Timestamp * num) :=
  iqr_outlier_removal F (series data c).

(** The (country, invoice_date) pairs of the rows of one country. *)
Definition country_days (data : list (Row Timestamp Z num)) (c : Z) : list (Z * Timestamp) :=
  map (fun d => (c, day_start d)) (bin_days (kept data c)).

(** The total of each daily bin of a series, before rounding. *)
Definition daily_totals (rows : list (Timestamp * num)) : list num :=
  interpolate F (map (bin_sum F rows) (bin_days rows)).

(** The rows of one country in the table [aggregate_data] returns, before the
    [id] column is added: a row for each bin day of the values the filter
    kept, with the rounded total of the day. *)
Definition country_rows (data : list (Row Timestamp Z num)) (c : Z)
  : list (Timestamp * num * Z) :=
  add_country F c (combine (map day_start (bin_days (kept data c)))
                           (map (Float.rint F) (daily_totals (kept data c)))).

(** One of the three partitions is left without a value. *)
Definition some_partition_empty (data : list (Row Timestamp Z num)) : bool :=
  existsb (fun c => match kept data c with [] => true | _ => false end) [0; 1; 2].

End AggregatorVocabulary.

(** What [cast_columns] does to one row. *)
Definition cast_row {P} (r : Row DateText string P) : Result (Row Timestamp string P) :=
  t <- to_datetime (invoice_date r) ;;
  Ok (mkRow (invoice_id r) t (total_price r) (country r)).

(** Equality of events is decidable. *)
Definition event_eq_dec (a b : Extract.Event) : {a = b} + {a <> b}.
Proof. decide equality. Defined.

(** ** First-seen positions *)

(** [y] is none of the names seen so far. *)
Definition unseen (seen : list string) (y : string) : bool :=
  negb (existsb (String.eqb y) seen).

(** The names that come before the first occurrence of [x]. *)
Fixpoint prefix_before (x : string) (l : list string) : list string :=
  match l with
  | [] => []
  | y :: tl => if String.eqb y x then [] else y :: prefix_before x tl
  end.

(** The 0-indexed position of first appearance of [x] among the distinct
    names of [l]: how many distinct names occur before [x] does. *)
Definition first_seen_position (x : string) (l : list string) : Z :=
  Z.of_nat (List.length (nodup string_dec (prefix_before x l))).

(** The encoded row of a row, given the names of the filtered data. *)
Definition encoded {P} (names : list string) (r : Row Timestamp string P)
  : Row Timestamp Z P :=
  mkRow (invoice_id r) (invoice_date r) (total_price r)
        (to_int8 (first_seen_position (country r) names)).

(** ** Inputs of the examples *)

Local Open Scope float_scope.

(** A raw record with the columns the transform keeps. *)
Definition record (invoice : string) (date : DateText) (price : float) (country : string)
  : RawRecord float :=
  mkRawRecord invoice EmptyString EmptyString 1 date price EmptyString country.

(** The example of the specification: one invoice of 10.0 on 2011-01-01 and
    one of 20.0 on 2011-01-03, both of the United Kingdom. *)
Definition spec_example : list (RawRecord float) :=
  [ record "inv1" (mkDateText 1 1 2011 0 0) 10 "United Kingdom";
    record "inv2" (mkDateText 1 3 2011 0 0) 20 "United Kingdom" ]%string.

(** The same two invoices, with one invoice of France and one of Germany. *)
Definition gap_example : list (RawRecord float) :=
  spec_example
  ++ [ record "inv3" (mkDateText 1 1 2011 0 0) 5 "France";
       record "inv4" (mkDateText 1 2 2011 0 0) 7 "Germany" ]%string.

(** Records of a country that is not on the allow-list. *)
Definition unmatched_example : list (RawRecord float) :=
  [ record "inv1" (mkDateText 1 1 2011 0 0) 10 "Spain";
    record "inv2" (mkDateText 1 3 2011 0 0) 20 "Spain" ]%string.

(** A series of values, at the minutes 1, 2, ... *)
Definition at_minutes (values : list float) : list (Timestamp * float) :=
  combine (zrange 1 (List.length values)) values.

(** A series on which a second application of the filter would remove one
    more value: 100 is within the bounds of the whole series, and outside the
    bounds of the series without 100000. *)
Definition two_pass_series : list (Timestamp * float) :=
  at_minutes [1; 2; 3; 4; 100; 100000].

(** The series of the specification's example: 10, 12, 11, 13, 1000. *)
Definition spec_series : list (Timestamp * float) :=
  at_minutes [10; 12; 11; 13; 1000].

(** The series 1, ..., 8 and 19: its quartiles are 3 and 7, its upper bound
    is 19. *)
Definition bound_series : list (Timestamp * float) :=
  at_minutes [1; 2; 3; 4; 5; 6; 7; 8; 19].

(** The series 0.1, 0.1, 0.2, 0.45, 1.5 (the nearest float64 numbers, written
    in hexadecimal): its quartiles are 0.1 and 0.45. *)
Definition rounded_series : list (Timestamp * float) :=
  at_minutes [0x1.999999999999ap-4; 0x1.999999999999ap-4; 0x1.999999999999ap-3;
              0x1.ccccccccccccdp-2; 0x1.8p+0].

(** Two raw records of 12/1/2010, at 8:26 and at 8:28. *)
Definition same_day_records : list (RawRecord float) :=
  [ mkRawRecord "536365" "85123A" "WHITE HANGING HEART T-LIGHT HOLDER" 6
                (mkDateText 12 1 2010 8 26) 10 "17850" "United Kingdom";
    mkRawRecord "536366" "22633" "HAND WARMER UNION JACK" 6
                (mkDateText 12 1 2010 8 28) 20 "17850" "United Kingdom" ]%string.

(** The same two invoices once renamed, cast, filtered and encoded: country 0,
    2010-12-01 at 08:26 and at 08:28. *)
Definition same_day_rows : list (Row Timestamp Z float) :=
  [ mkRow "536365" (timestamp_of 2010 12 1 8 26) 10 0%Z;
    mkRow "536366" (timestamp_of 2010 12 1 8 28) 20 0%Z ]%string.

(** Five invoices of the United Kingdom, one a day from 2011-01-01 to
    2011-01-05, the first one of an extreme value. *)
Definition outlier_first_day_records : list (RawRecord float) :=
  [ record "i1" (mkDateText 1 1 2011 9 0) 1000 "United Kingdom";
    record "i2" (mkDateText 1 2 2011 9 0) 10 "United Kingdom";
    record "i3" (mkDateText 1 3 2011 9 0) 12 "United Kingdom";
    record "i4" (mkDateText 1 4 2011 9 0) 11 "United Kingdom";
    record "i5" (mkDateText 1 5 2011 9 0) 13 "United Kingdom" ]%string.

(** The same invoices with one invoice of France and one of Germany. *)
Definition three_country_records : list (RawRecord float) :=
  outlier_first_day_records
  ++ [ record "i6" (mkDateText 1 1 2011 9 0) 5 "France";
       record "i7" (mkDateText 1 2 2011 9 0) 7 "Germany" ]%string.

(** The rows of [outlier_first_day_records] once renamed, cast, filtered and
    encoded: country 0. *)
Definition outlier_first_day_rows : list (Row Timestamp Z float) :=
  [ mkRow "i1" (timestamp_of 2011 1 1 9 0) 1000 0%Z;
    mkRow "i2" (timestamp_of 2011 1 2 9 0) 10 0%Z;
    mkRow "i3" (timestamp_of 2011 1 3 9 0) 12 0%Z;
    mkRow "i4" (timestamp_of 2011 1 4 9 0) 11 0%Z;
    mkRow "i5" (timestamp_of 2011 1 5 9 0) 13 0%Z ]%string.

(** The rows of [three_country_records] once renamed, cast, filtered and
    encoded: France is country 1, Germany country 2. *)
Definition three_country_rows : list (Row Timestamp Z float) :=
  outlier_first_day_rows
  ++ [ mkRow "i6" (timestamp_of 2011 1 1 9 0) 5 1%Z;
       mkRow "i7" (timestamp_of 2011 1 2 9 0) 7 2%Z ]%string.

(** Two-letter country names, one for each number: AA, AB, ..., AP, BA, ... *)
Definition country_name (i : nat) : string :=
  String (ascii_of_nat (65 + i / 16)) (String (ascii_of_nat (65 + i mod 16)) EmptyString).

(** 129 rows, each of a country of its own. *)
Definition many_countries : list (Row Timestamp string float) :=
  map (fun i => mkRow "536365"%string (timestamp_of 2010 12 1 8 26) 1 (country_name i))
      (seq 0 129).

Local Close Scope float_scope.
(** * Properties *)

(** ** Lists *)

Lemma filter_map_comm {A B} (f : A -> B) (P : B -> bool) (l : list A) :
  filter P (map f l) = map f (filter (fun x => P (f x)) l).
Proof.
  induction l as [|a l IH]; simpl; auto.
  destruct (P (f a)); simpl; congruence.
Qed.

Lemma filter_filter {A} (P R : A -> bool) (l : list A) :
  filter P (filter R l) = filter (fun x => R x && P x) l.
Proof.
  induction l as [|a l IH]; simpl; auto.
  destruct (R a); simpl; [destruct (P a); simpl; congruence | assumption].
Qed.

Lemma filter_none {A} (f : A -> bool) (l : list A) :
  (forall x, In x l -> f x = false) -> filter f l = [].
Proof.
  induction l as [|a l IH]; simpl; intros H; auto.
  rewrite (H a) by auto. apply IH. auto.
Qed.

Lemma NoDup_map_injective {A B} (f : A -> B) (l : list A) :
  (forall x y, In x l -> In y l -> f x = f y -> x = y) -> NoDup l -> NoDup (map f l).
Proof.
  intros Hf H. induction H as [|a l Ha Hl IH]; simpl; constructor.
  - intros Hin. apply in_map_iff in Hin. destruct Hin as (b & Hb & Hin).
    apply Ha. rewrite <- (Hf b a); simpl; auto.
  - apply IH. intros x y Hx Hy. apply Hf; simpl; auto.
Qed.

Lemma combine_fst_snd {A B} (l : list (A * B)) : combine (map fst l) (map snd l) = l.
Proof. induction l as [|[a b] l IH]; simpl; congruence. Qed.

Lemma map_fst_combine {A B} (l : list A) (l' : list B) :
  List.length l = List.length l' -> map fst (combine l l') = l.
Proof.
  revert l'. induction l as [|a l IH]; intros [|b l'] H; simpl in *; try congruence.
  f_equal. apply IH. congruence.
Qed.

Lemma map_snd_combine {A B} (l : list A) (l' : list B) :
  List.length l = List.length l' -> map snd (combine l l') = l'.
Proof.
  revert l'. induction l as [|a l IH]; intros [|b l'] H; simpl in *; try congruence.
  f_equal. apply IH. congruence.
Qed.

(** ** Grouping *)

Section GroupFacts.

Context {K V : Type}.
Variable cmp : K -> K -> comparison.

Hypothesis cmp_eq : forall a b, cmp a b = Eq <-> a = b.
Hypothesis cmp_antisym : forall a b, cmp a b = CompOpp (cmp b a).
Hypothesis cmp_trans : forall a b c, cmp a b = Lt -> cmp b c = Lt -> cmp a c = Lt.

Lemma cmp_gt_lt a b : cmp a b = Gt -> cmp b a = Lt.
Proof.
  intros H. rewrite cmp_antisym in H. destruct (cmp b a); simpl in H; congruence.
Qed.

Lemma cmp_refl a : cmp a a = Eq.
Proof. now apply cmp_eq. Qed.

Lemma above_trans {W} k k' (groups : list (K * W)) :
  cmp k k' = Lt -> above cmp k' groups -> above cmp k groups.
Proof.
  intros Hk H. unfold above in *. rewrite Forall_forall in *.
  intros e He. eapply cmp_trans; eauto.
Qed.

Lemma above_insert_row k0 k (v : V) groups :
  cmp k0 k = Lt -> above cmp k0 groups -> above cmp k0 (insert_row cmp k v groups).
Proof.
  intros Hk. induction groups as [|[k' vs] tl IH]; simpl; intros Ha.
  - constructor; auto.
  - inversion Ha; subst. destruct (cmp k k') eqn:E.
    + constructor; auto.
    + constructor; auto.
    + constructor; auto. apply IH; auto.
Qed.

Lemma insert_row_ascending k (v : V) groups :
  ascending cmp groups -> ascending cmp (insert_row cmp k v groups).
Proof.
  induction 1 as [|k' vs tl Ha Hs IH]; simpl.
  - repeat constructor.
  - destruct (cmp k k') eqn:E.
    + constructor; auto.
    + constructor.
      * constructor; auto. eapply above_trans; eauto.
      * constructor; auto.
    + constructor; auto. apply above_insert_row; auto. now apply cmp_gt_lt.
Qed.

Lemma group_rows_from_ascending (rows : list (K * V)) groups :
  ascending cmp groups ->
  ascending cmp (fold_left (fun g r => insert_row cmp (fst r) (snd r) g) rows groups).
Proof.
  revert groups. induction rows as [|r rows IH]; simpl; intros groups H; auto.
  apply IH. now apply insert_row_ascending.
Qed.

Lemma group_rows_ascending (rows : list (K * V)) : ascending cmp (group_rows cmp rows).
Proof. apply group_rows_from_ascending. constructor. Qed.

(** The keys of the groups are the keys of the rows. *)
Lemma insert_row_keys k (v : V) groups k0 :
  In k0 (map fst (insert_row cmp k v groups)) <-> k0 = k \/ In k0 (map fst groups).
Proof.
  induction groups as [|[k' vs] tl IH]; simpl.
  - intuition.
  - destruct (cmp k k') eqn:E; simpl.
    + apply cmp_eq in E. subst k'. intuition.
    + intuition.
    + rewrite IH. intuition.
Qed.

Lemma group_rows_from_keys (rows : list (K * V)) groups k0 :
  In k0 (map fst (fold_left (fun g r => insert_row cmp (fst r) (snd r) g) rows groups))
  <-> In k0 (map fst rows) \/ In k0 (map fst groups).
Proof.
  revert groups. induction rows as [|r rows IH]; simpl; intros groups.
  - intuition.
  - rewrite IH, insert_row_keys. intuition.
Qed.

Lemma group_rows_keys (rows : list (K * V)) k0 :
  In k0 (map fst (group_rows cmp rows)) <-> In k0 (map fst rows).
Proof.
  unfold group_rows. rewrite group_rows_from_keys. simpl. intuition.
Qed.

(** Selecting groups by a predicate on the key commutes with grouping. *)
Variable P : K -> bool.

Lemma above_select {W} k (groups : list (K * W)) :
  above cmp k groups -> above cmp k (select P groups).
Proof.
  unfold above, select. rewrite !Forall_forall. intros H e He.
  apply filter_In in He. apply H. tauto.
Qed.

Lemma insert_row_above k (v : V) groups :
  above cmp k groups -> insert_row cmp k v groups = (k, [v]) :: groups.
Proof.
  destruct groups as [|[k' vs] tl]; simpl; auto.
  intros H. inversion H; subst. simpl in *. now rewrite H2.
Qed.

Lemma select_insert_row k (v : V) groups :
  ascending cmp groups ->
  select P (insert_row cmp k v groups)
  = if P k then insert_row cmp k v (select P groups) else select P groups.
Proof.
  induction 1 as [|k' vs tl Ha Hs IH]; simpl.
  - destruct (P k); reflexivity.
  - destruct (cmp k k') eqn:E; simpl.
    + apply cmp_eq in E. subst k'. destruct (P k) eqn:Pk; simpl; auto.
      rewrite cmp_refl. reflexivity.
    + destruct (P k) eqn:Pk; auto.
      assert (Hab : above cmp k (select P ((k', vs) :: tl))).
      { apply above_select. constructor; auto. eapply above_trans; eauto. }
      fold (select P ((k', vs) :: tl)).
      change (filter (fun e => P (fst e)) tl) with (select P tl).
      rewrite insert_row_above; auto.
    + fold (select P (insert_row cmp k v tl)). rewrite IH.
      change (filter (fun e => P (fst e)) tl) with (select P tl).
      destruct (P k'), (P k); simpl; auto. now rewrite E.
Qed.

Lemma select_group_rows_from (rows : list (K * V)) groups :
  ascending cmp groups ->
  select P (fold_left (fun g r => insert_row cmp (fst r) (snd r) g) rows groups)
  = fold_left (fun g r => insert_row cmp (fst r) (snd r) g) (select P rows)
              (select P groups).
Proof.
  revert groups. induction rows as [|r rows IH]; simpl; intros groups H; auto.
  rewrite IH by now apply insert_row_ascending.
  rewrite select_insert_row by assumption.
  destruct (P (fst r)); reflexivity.
Qed.

Lemma select_group_rows (rows : list (K * V)) :
  select P (group_rows cmp rows) = group_rows cmp (select P rows).
Proof. unfold group_rows. rewrite select_group_rows_from; [reflexivity | constructor]. Qed.

(** With ascending keys, a key selects at most one group. *)
Lemma select_above_none {W} k (groups : list (K * W)) :
  (forall k', P k' = true -> k' = k) -> above cmp k groups -> select P groups = [].
Proof.
  intros HP. induction 1 as [|[k' v'] tl Hk Ha IH]; simpl; auto.
  destruct (P k') eqn:E; auto. apply HP in E. subst k'. simpl in Hk.
  rewrite cmp_refl in Hk. discriminate.
Qed.

Lemma select_single {W} k (v : W) (groups : list (K * W)) :
  (forall k', P k' = true <-> k' = k) ->
  ascending cmp groups -> In (k, v) groups -> select P groups = [(k, v)].
Proof.
  intros HP. induction 1 as [|k' v' tl Ha Hs IH]; simpl; intros Hin; [tauto|].
  destruct Hin as [Heq | Hin].
  - inversion Heq; subst. rewrite (proj2 (HP k) eq_refl).
    f_equal. eapply select_above_none; eauto. intros k' Hk'. now apply HP.
  - destruct (P k') eqn:E; auto.
    apply HP in E. subst k'. exfalso.
    unfold above in Ha. rewrite Forall_forall in Ha.
    specialize (Ha _ Hin). simpl in Ha.
    rewrite cmp_refl in Ha. discriminate.
Qed.

(** The rows of one key make one group, of their values in row order. *)
Lemma group_rows_one_key_from k (rows : list (K * V)) vs :
  (forall r, In r rows -> fst r = k) ->
  fold_left (fun g r => insert_row cmp (fst r) (snd r) g) rows [(k, vs)]
  = [(k, vs ++ map snd rows)].
Proof.
  revert vs. induction rows as [|r rows IH]; intros vs Hk.
  - simpl. now rewrite app_nil_r.
  - cbn [fold_left map insert_row]. rewrite (Hk r) by now left.
    rewrite cmp_refl, IH, <- app_assoc; [reflexivity|].
    intros r' Hr'. apply Hk. now right.
Qed.

Lemma group_rows_one_key k r (rows : list (K * V)) :
  (forall r', In r' (r :: rows) -> fst r' = k) ->
  group_rows cmp (r :: rows) = [(k, map snd (r :: rows))].
Proof.
  intros Hk. unfold group_rows. cbn [fold_left map insert_row].
  rewrite (Hk r) by now left.
  apply group_rows_one_key_from. intros r' Hr'. apply Hk. now right.
Qed.

(** The values of every group, one after the other, are the values of the
    rows in another order. *)
Lemma insert_row_Permutation k (v : V) groups :
  Permutation (flat_map snd (insert_row cmp k v groups)) (v :: flat_map snd groups).
Proof.
  induction groups as [|[k' vs] tl IH]; cbn [insert_row flat_map snd].
  - reflexivity.
  - destruct (cmp k k'); cbn [flat_map snd].
    + rewrite <- app_assoc. apply Permutation_sym, Permutation_middle.
    + reflexivity.
    + rewrite IH. apply Permutation_sym, Permutation_middle.
Qed.

Lemma group_rows_from_Permutation (rows : list (K * V)) groups :
  Permutation
    (flat_map snd (fold_left (fun g r => insert_row cmp (fst r) (snd r) g) rows groups))
    (flat_map snd groups ++ map snd rows).
Proof.
  revert groups. induction rows as [|r rows IH]; intros groups; cbn [fold_left map].
  - now rewrite app_nil_r.
  - rewrite IH, insert_row_Permutation. apply Permutation_middle.
Qed.

Lemma group_rows_Permutation (rows : list (K * V)) :
  Permutation (flat_map snd (group_rows cmp rows)) (map snd rows).
Proof. apply (group_rows_from_Permutation rows []). Qed.

End GroupFacts.

Section GroupValues.

Context {K V : Type}.
Variable cmp : K -> K -> comparison.

Hypothesis cmp_eq : forall a b, cmp a b = Eq <-> a = b.
Hypothesis cmp_antisym : forall a b, cmp a b = CompOpp (cmp b a).
Hypothesis cmp_trans : forall a b c, cmp a b = Lt -> cmp b c = Lt -> cmp a c = Lt.

(** The values of a group are the values of the rows of its key, in row
    order. *)
Lemma group_rows_value (rows : list (K * V)) k vs :
  In (k, vs) (group_rows cmp rows) -> vs = map snd (same_key cmp k rows).
Proof.
  intros Hin.
  set (P := fun k' : K => match cmp k' k with Eq => true | _ => false end).
  assert (HP : forall k', P k' = true <-> k' = k).
  { intros k'. unfold P. rewrite <- cmp_eq. destruct (cmp k' k); split; congruence. }
  pose proof (select_single cmp cmp_eq P k vs (group_rows cmp rows) HP
                (group_rows_ascending cmp cmp_antisym cmp_trans rows) Hin) as Hsel.
  rewrite (select_group_rows cmp cmp_eq cmp_antisym cmp_trans) in Hsel.
  change (select P rows) with (same_key cmp k rows) in Hsel.
  destruct (same_key cmp k rows) as [|r rows'] eqn:E; [discriminate Hsel|].
  rewrite (group_rows_one_key cmp cmp_eq k) in Hsel.
  - now injection Hsel as <-.
  - intros r' Hr'. rewrite <- E in Hr'. apply filter_In in Hr'.
    apply HP. apply Hr'.
Qed.

End GroupValues.

Section GroupByFacts.

Variable F : Float.Arithmetic.
Context {K : Type}.
Variable cmp : K -> K -> comparison.

Local Abbreviation num := (Float.num F).

Hypothesis cmp_eq : forall a b, cmp a b = Eq <-> a = b.
Hypothesis cmp_antisym : forall a b, cmp a b = CompOpp (cmp b a).
Hypothesis cmp_trans : forall a b c, cmp a b = Lt -> cmp b c = Lt -> cmp a c = Lt.

Lemma ascending_sums (groups : list (K * list num)) :
  ascending cmp groups ->
  ascending cmp (map (fun g => (fst g, sum_values F (snd g))) groups).
Proof.
  induction 1 as [|k vs tl Ha Hs IH]; cbn [map fst snd]; constructor; auto.
  unfold above in *. rewrite Forall_forall in *. intros e He.
  apply in_map_iff in He. destruct He as (g & <- & Hg). now apply Ha.
Qed.

Lemma groupby_sum_ascending (rows : list (K * num)) : ascending cmp (groupby_sum F cmp rows).
Proof. apply ascending_sums, (group_rows_ascending cmp cmp_antisym cmp_trans). Qed.

Lemma groupby_sum_keys (rows : list (K * num)) k0 :
  In k0 (map fst (groupby_sum F cmp rows)) <-> In k0 (map fst rows).
Proof.
  unfold groupby_sum. rewrite map_map. cbn [fst].
  apply (group_rows_keys cmp cmp_eq).
Qed.

Lemma select_groupby_sum (P : K -> bool) (rows : list (K * num)) :
  select P (groupby_sum F cmp rows) = groupby_sum F cmp (select P rows).
Proof.
  unfold groupby_sum, select at 1. rewrite filter_map_comm. cbn [fst].
  change (filter (fun x : K * list num => P (fst x))) with (select (V := list num) P).
  now rewrite (select_group_rows cmp cmp_eq cmp_antisym cmp_trans).
Qed.

(** The value of a group is the sum of the values of the rows of its key, in
    row order. *)
Lemma groupby_sum_value (rows : list (K * num)) k v :
  In (k, v) (groupby_sum F cmp rows) ->
  v = sum_values F (map snd (same_key cmp k rows)).
Proof.
  unfold groupby_sum. intros Hin. apply in_map_iff in Hin.
  destruct Hin as ([k' vs] & E & Hin). cbn [fst snd] in E. injection E as -> <-.
  now rewrite (group_rows_value cmp cmp_eq cmp_antisym cmp_trans rows k vs Hin).
Qed.

End GroupByFacts.

(** The two orders used by [aggregate_data] are strict total orders. *)

Lemma Z_compare_trans a b c :
  Z.compare a b = Lt -> Z.compare b c = Lt -> Z.compare a c = Lt.
Proof. rewrite !Z.compare_lt_iff. lia. Qed.

Lemma Z_compare_antisym a b : Z.compare a b = CompOpp (Z.compare b a).
Proof. apply Z.compare_antisym. Qed.

Lemma string_compare_refl a : String.compare a a = Eq.
Proof. now apply String_as_OT.cmp_eq. Qed.

Lemma string_compare_trans a b c :
  String.compare a b = Lt -> String.compare b c = Lt -> String.compare a c = Lt.
Proof.
  intros H1 H2. apply String_as_OT.cmp_lt.
  apply String_as_OT.cmp_lt in H1. apply String_as_OT.cmp_lt in H2.
  eapply String_as_OT.lt_trans; eauto.
Qed.

Lemma key3_compare_eq a b : key3_compare a b = Eq <-> a = b.
Proof.
  destruct a as [[d1 i1] c1], b as [[d2 i2] c2]. simpl.
  destruct (Z.compare d1 d2) eqn:Ed.
  - apply Z.compare_eq_iff in Ed. subst d2.
    destruct (String.compare i1 i2) eqn:Ei.
    + apply String_as_OT.cmp_eq in Ei. subst i2.
      rewrite Z.compare_eq_iff. split; [intros ->; reflexivity | congruence].
    + split; [discriminate|]. intros H. inversion H; subst.
      rewrite string_compare_refl in Ei. discriminate.
    + split; [discriminate|]. intros H. inversion H; subst.
      rewrite string_compare_refl in Ei. discriminate.
  - split; [discriminate|]. intros H. inversion H; subst.
    rewrite Z.compare_refl in Ed. discriminate.
  - split; [discriminate|]. intros H. inversion H; subst.
    rewrite Z.compare_refl in Ed. discriminate.
Qed.

Lemma key3_compare_antisym a b : key3_compare a b = CompOpp (key3_compare b a).
Proof.
  destruct a as [[d1 i1] c1], b as [[d2 i2] c2]. simpl.
  pose proof (String_as_OT.cmp_antisym i1 i2) as Hs.
  unfold String_as_OT.cmp in Hs.
  rewrite (Z.compare_antisym d2 d1), Hs, (Z.compare_antisym c2 c1).
  destruct (Z.compare d2 d1), (String.compare i2 i1), (Z.compare c2 c1); reflexivity.
Qed.

Lemma key3_compare_trans a b c :
  key3_compare a b = Lt -> key3_compare b c = Lt -> key3_compare a c = Lt.
Proof.
  destruct a as [[d1 i1] c1], b as [[d2 i2] c2], c as [[d3 i3] c3]. simpl.
  destruct (Z.compare d1 d2) eqn:E12; try discriminate;
  destruct (Z.compare d2 d3) eqn:E23; try discriminate; intros H1 H2.
  - apply Z.compare_eq_iff in E12, E23. subst. rewrite Z.compare_refl.
    destruct (String.compare i1 i2) eqn:F12; try discriminate;
    destruct (String.compare i2 i3) eqn:F23; try discriminate.
    + apply String_as_OT.cmp_eq in F12, F23. subst.
      rewrite string_compare_refl.
      eapply Z_compare_trans; eauto.
    + apply String_as_OT.cmp_eq in F12. subst. now rewrite F23.
    + apply String_as_OT.cmp_eq in F23. subst. now rewrite F12.
    + now rewrite (string_compare_trans _ _ _ F12 F23).
  - apply Z.compare_eq_iff in E12. subst. now rewrite E23.
  - apply Z.compare_eq_iff in E23. subst. now rewrite E12.
  - now rewrite (Z_compare_trans _ _ _ E12 E23).
Qed.

(** ** The Result monad *)

Lemma mapM_ok {A B} (f : A -> Result B) (g : A -> B) (l : list A) :
  (forall a, In a l -> f a = Ok (g a)) -> mapM f l = Ok (map g l).
Proof.
  induction l as [|a l IH]; simpl; intros H; auto.
  rewrite (H a) by auto. simpl. rewrite IH by auto. reflexivity.
Qed.

Lemma mapM_Ok_inv {A B} (f : A -> Result B) (l : list A) (out : list B) :
  mapM f l = Ok out -> Forall2 (fun a b => f a = Ok b) l out.
Proof.
  revert out. induction l as [|a l IH]; simpl; intros out H.
  - injection H as <-. constructor.
  - destruct (f a) as [b|e] eqn:Ea; [|discriminate]. simpl in H.
    destruct (mapM f l) as [bs|e]; [|discriminate]. simpl in H.
    injection H as <-. constructor; auto.
Qed.

(** The error [mapM] raises is the error of the first element that fails. *)
Lemma mapM_Raise_inv {A B} (f : A -> Result B) (l : list A) e :
  mapM f l = Raise e ->
  exists l1 a l2, l = l1 ++ a :: l2 /\ f a = Raise e
                  /\ forall x, In x l1 -> exists b, f x = Ok b.
Proof.
  induction l as [|a l IH]; simpl; [discriminate|].
  destruct (f a) as [b|e'] eqn:Ea; simpl.
  - destruct (mapM f l) as [bs|e'] eqn:El; simpl; [discriminate|].
    intros H. injection H as ->.
    destruct (IH eq_refl) as (l1 & a' & l2 & -> & Ha' & Hl1).
    exists (a :: l1), a', l2. split; [reflexivity | split; [assumption|]].
    intros x [<- | Hx]; eauto.
  - intros H. injection H as ->. exists [], a, l. split; [reflexivity | split; [assumption|]].
    intros x [].
Qed.

(** ** Resampling and interpolation *)

Lemma fold_left_min_spec l a :
  let m := fold_left Z.min l a in
  (m = a \/ In m l) /\ m <= a /\ (forall x, In x l -> m <= x).
Proof.
  revert a. induction l as [|y l IH]; intros a; simpl.
  - split; [auto | split; [lia | tauto]].
  - destruct (IH (Z.min a y)) as (H1 & H2 & H3). split; [|split].
    + destruct H1 as [H1 | H1]; auto. rewrite H1.
      destruct (Z.min_spec a y) as [[_ ->] | [_ ->]]; auto.
    + lia.
    + intros x [-> | Hx]; [lia | auto].
Qed.

Lemma fold_left_max_spec l a :
  let m := fold_left Z.max l a in
  (m = a \/ In m l) /\ a <= m /\ (forall x, In x l -> x <= m).
Proof.
  revert a. induction l as [|y l IH]; intros a; simpl.
  - split; [auto | split; [lia | tauto]].
  - destruct (IH (Z.max a y)) as (H1 & H2 & H3). split; [|split].
    + destruct H1 as [H1 | H1]; auto. rewrite H1.
      destruct (Z.max_spec a y) as [[_ ->] | [_ ->]]; auto.
    + lia.
    + intros x [-> | Hx]; [lia | auto].
Qed.

Lemma zrange_In first len d :
  In d (zrange first len) <-> first <= d < first + Z.of_nat len.
Proof.
  unfold zrange. rewrite in_map_iff. split.
  - intros (i & <- & Hi). apply in_seq in Hi. lia.
  - intros H. exists (Z.to_nat (d - first)). split; [lia|]. apply in_seq. lia.
Qed.

Lemma zrange_NoDup first len : NoDup (zrange first len).
Proof.
  unfold zrange. apply NoDup_map_injective; [|apply seq_NoDup].
  intros i j _ _ H. lia.
Qed.

Lemma zrange_length first len : List.length (zrange first len) = len.
Proof. unfold zrange. now rewrite length_map, length_seq. Qed.

Lemma zrange_cons first len : zrange first (S len) = first :: zrange (first + 1) len.
Proof.
  unfold zrange. cbn [seq map]. rewrite <- seq_shift, map_map.
  f_equal; [lia|]. apply map_ext. intros i. lia.
Qed.

Lemma bin_days_NoDup {V} (rows : list (Timestamp * V)) : NoDup (bin_days rows).
Proof. destruct rows; [constructor | apply zrange_NoDup]. Qed.

Lemma bin_days_In {V} (rows : list (Timestamp * V)) d :
  In d (bin_days rows) <->
  exists a b, In a rows /\ In b rows /\ floor_day (fst a) <= d <= floor_day (fst b).
Proof.
  destruct rows as [|r tl].
  - simpl. split; [tauto | intros (a & _ & [] & _)].
  - unfold bin_days. rewrite zrange_In.
    set (days := map (fun x => floor_day (fst x)) tl).
    destruct (fold_left_min_spec days (floor_day (fst r))) as (Hm1 & Hm2 & Hm3).
    destruct (fold_left_max_spec days (floor_day (fst r))) as (HM1 & HM2 & HM3).
    cbv zeta in *.
    set (first := fold_left Z.min days (floor_day (fst r))) in *.
    set (last := fold_left Z.max days (floor_day (fst r))) in *.
    assert (Hday : forall x, In x (r :: tl) -> first <= floor_day (fst x) <= last).
    { intros x [<- | Hx]; [lia|].
      assert (In (floor_day (fst x)) days) by (unfold days; apply in_map_iff; eauto).
      split; auto. }
    assert (Hfirst : exists a, In a (r :: tl) /\ floor_day (fst a) = first).
    { destruct Hm1 as [H | H].
      - exists r. simpl; auto.
      - unfold days in H. apply in_map_iff in H. destruct H as (a & Ha & Hin).
        exists a. simpl; auto. }
    assert (Hlast : exists b, In b (r :: tl) /\ floor_day (fst b) = last).
    { destruct HM1 as [H | H].
      - exists r. simpl; auto.
      - unfold days in H. apply in_map_iff in H. destruct H as (b & Hb & Hin).
        exists b. simpl; auto. }
    split.
    + intros H. destruct Hfirst as (a & Ha & Ea), Hlast as (b & Hb & Eb).
      exists a, b. repeat split; auto; lia.
    + intros (a & b & Ha & Hb & Hd).
      pose proof (Hday a Ha). pose proof (Hday b Hb). lia.
Qed.

Lemma bin_days_nonempty {V} (r : Timestamp * V) tl : bin_days (r :: tl) <> [].
Proof.
  intros E.
  assert (H : In (floor_day (fst r)) (bin_days (r :: tl))).
  { apply bin_days_In. exists r, r. simpl. repeat split; auto; lia. }
  rewrite E in H. destruct H.
Qed.

Lemma day_start_injective d d' : day_start d = day_start d' -> d = d'.
Proof. unfold day_start, minutes_per_day. lia. Qed.

Section ResampleFacts.

Variable F : Float.Arithmetic.

Local Abbreviation num := (Float.num F).

Lemma resample_sum_bins (rows : list (Timestamp * num)) :
  resample_sum F rows
  = match rows with
    | [] => Raise AttributeError
    | _ => Ok (map (fun d => (day_start d, bin_sum F rows d)) (bin_days rows))
    end.
Proof. destruct rows; reflexivity. Qed.

Lemma interpolate_from_length prev i pending (col : list num) :
  List.length (interpolate_from F prev i pending col) = (pending + List.length col)%nat.
Proof.
  revert prev i pending. induction col as [|v tl IH]; intros prev i pending; simpl.
  - rewrite repeat_length. lia.
  - destruct (Float.isna F v).
    + rewrite IH. lia.
    + rewrite length_app. cbn [List.length]. rewrite IH.
      destruct prev as [[x0 a]|];
        [rewrite length_map, zrange_length | rewrite repeat_length]; lia.
Qed.

Lemma interpolate_length (col : list num) :
  List.length (interpolate F col) = List.length col.
Proof. unfold interpolate. now rewrite interpolate_from_length. Qed.

(** [interpolate] leaves every cell that is not NaN as it is. *)
Lemma interpolate_from_present prev i pending (col : list num) j d :
  (j < List.length col)%nat -> Float.isna F (nth j col d) = false ->
  nth (pending + j) (interpolate_from F prev i pending col) d = nth j col d.
Proof.
  revert prev i pending j. induction col as [|v tl IH]; intros prev i pending j Hj Hv;
    [simpl in Hj; lia|].
  cbn [interpolate_from]. destruct (Float.isna F v) eqn:Ev.
  - destruct j as [|j]; [simpl in Hv; congruence|].
    replace (pending + S j)%nat with (S pending + j)%nat by lia.
    simpl in Hj. cbn [nth] in *. apply IH; [lia | assumption].
  - set (fill := match prev with
                 | Some (x0, a) => map (interp F x0 a i v) (zrange (x0 + 1) pending)
                 | None => repeat (Float.nan F) pending
                 end).
    assert (Hfill : List.length fill = pending).
    { unfold fill. destruct prev as [[x0 a]|];
        [now rewrite length_map, zrange_length | now rewrite repeat_length]. }
    rewrite app_nth2 by lia. rewrite Hfill.
    replace (pending + j - pending)%nat with j by lia.
    destruct j as [|j]; [reflexivity|].
    simpl in Hj. cbn [nth] in *.
    apply (IH (Some (i, v)) (i + 1) 0%nat j); [lia | assumption].
Qed.

Lemma interpolate_present (col : list num) j d :
  (j < List.length col)%nat -> Float.isna F (nth j col d) = false ->
  nth j (interpolate F col) d = nth j col d.
Proof. intros Hj Hv. apply (interpolate_from_present None 0 0%nat col j d Hj Hv). Qed.


Lemma map_snd_rint (days : list Timestamp) (col : list num) :
  map (fun r : Timestamp * num => (fst r, Float.rint F (snd r))) (combine days col)
  = combine days (map (Float.rint F) col).
Proof.
  revert col. induction days as [|d days IH]; intros [|v col]; simpl; auto.
  now rewrite IH.
Qed.

(** The rows of one country: one row per bin day of the values the filter
    kept, holding the rounded total of the day; an error when the filter kept
    nothing. *)
Lemma aggregate_country_bins agg_data c :
  let kept := iqr_outlier_removal F (agg_by_date F agg_data c) in
  aggregate_country F agg_data c
  = match kept with
    | [] => Raise AttributeError
    | _ => Ok (combine (map day_start (bin_days kept))
                       (map (Float.rint F) (daily_totals F kept)))
    end.
Proof.
  intros kept. unfold aggregate_country. fold kept. rewrite resample_sum_bins.
  destruct kept as [|r tl] eqn:E; [reflexivity|]. cbn [bind].
  rewrite map_snd_rint, !map_map. cbn [fst snd]. reflexivity.
Qed.

Lemma daily_totals_length (rows : list (Timestamp * num)) :
  List.length (daily_totals F rows) = List.length (bin_days rows).
Proof. unfold daily_totals. now rewrite interpolate_length, length_map. Qed.

(** *** The Outlier Filter *)

Lemma dropna_mark {K : Type} (out : K * num -> bool) (l : list (K * num)) :
  dropna F (map (fun r => if out r then (fst r, Float.nan F) else r) l)
  = filter (fun r => negb (out r) && negb (Float.isna F (snd r))) l.
Proof.
  unfold dropna. induction l as [|[k v] l IH]; simpl; auto.
  destruct (out (k, v)); simpl.
  - rewrite Float.isna_nan. simpl. exact IH.
  - destruct (Float.isna F v); simpl; congruence.
Qed.

Lemma iqr_outlier_removal_filter {K : Type} (agg_data : list (K * num)) :
  iqr_outlier_removal F agg_data
  = filter (fun r => negb (outside F (iqr_bounds F (map snd agg_data)) (snd r))
                     && negb (Float.isna F (snd r))) agg_data.
Proof. unfold iqr_outlier_removal. rewrite dropna_mark. reflexivity. Qed.

Lemma iqr_outlier_removal_In {K : Type} (agg_data : list (K * num)) r :
  In r (iqr_outlier_removal F agg_data) -> In r agg_data.
Proof. rewrite iqr_outlier_removal_filter. intros H. apply filter_In in H. tauto. Qed.

End ResampleFacts.

(** ** The series the Outlier Filter is given *)

Section SeriesFacts.

Variable F : Float.Arithmetic.

Local Abbreviation num := (Float.num F).

(** Selecting a country after the first grouping is the first grouping of the
    rows of that country. *)
Lemma agg_by_date_country (data : list (Row Timestamp Z num)) c :
  agg_by_date F (agg_by_invoice F data) c
  = groupby_sum F Z.compare
      (map (date_price F)
         (groupby_sum F key3_compare
            (map (key_price F) (filter (fun r => country r =? c) data)))).
Proof.
  unfold agg_by_date, agg_by_invoice.
  change (filter (fun r : Key3 * num => key3_country (fst r) =? c))
    with (select (V := num) (fun k : Key3 => key3_country k =? c)).
  rewrite (select_groupby_sum F key3_compare key3_compare_eq key3_compare_antisym
             key3_compare_trans).
  unfold select. rewrite filter_map_comm. reflexivity.
Qed.

Lemma ascending_Z_sorted (l : list (Timestamp * num)) :
  ascending Z.compare l -> StronglySorted Z.lt (map fst l).
Proof.
  induction 1 as [|k v tl Ha Hs IH]; simpl; constructor; auto.
  unfold above in Ha. rewrite Forall_forall in *.
  intros t Ht. apply in_map_iff in Ht. destruct Ht as (e & <- & He).
  apply Ha in He. now apply Z.compare_lt_iff.
Qed.

Lemma agg_by_date_ascending (agg_data : list (Key3 * num)) c :
  ascending Z.compare (agg_by_date F agg_data c).
Proof.
  apply groupby_sum_ascending.
  - apply Z_compare_antisym.
  - apply Z_compare_trans.
Qed.

Lemma agg_by_date_timestamps (data : list (Row Timestamp Z num)) c t :
  In t (map fst (agg_by_date F (agg_by_invoice F data) c)) <->
  exists r, In r data /\ country r = c /\ invoice_date r = t.
Proof.
  rewrite agg_by_date_country.
  rewrite (groupby_sum_keys F Z.compare Z.compare_eq_iff).
  rewrite map_map. rewrite in_map_iff. split.
  - intros (e & <- & He).
    assert (Hk : In (fst e) (map fst (groupby_sum F key3_compare
                 (map (key_price F) (filter (fun r => country r =? c) data))))).
    { apply in_map. exact He. }
    apply (proj1 (groupby_sum_keys F key3_compare key3_compare_eq _ _)) in Hk.
    rewrite map_map in Hk. apply in_map_iff in Hk.
    destruct Hk as (r & Hr & Hin). apply filter_In in Hin. destruct Hin as [Hin Hc].
    exists r. repeat split; auto; [lia|].
    unfold date_price. simpl. rewrite <- Hr. reflexivity.
  - intros (r & Hin & Hc & Ht).
    assert (Hk : In (key3 r) (map fst (groupby_sum F key3_compare
                 (map (key_price F) (filter (fun r => country r =? c) data))))).
    { apply (proj2 (groupby_sum_keys F key3_compare key3_compare_eq _ _)).
      rewrite map_map. apply in_map_iff. exists r. split; auto.
      apply filter_In. split; auto. lia. }
    apply in_map_iff in Hk. destruct Hk as (e & He & Hin').
    exists e. split; auto. unfold date_price. simpl. rewrite He. exact Ht.
Qed.

(** The total of a timestamp is the sum of the totals of the invoices of the
    country at that timestamp, in the order of the first grouping. *)
Lemma agg_by_date_value (agg_data : list (Key3 * num)) c t v :
  In (t, v) (agg_by_date F agg_data c) ->
  v = sum_values F
        (map snd (filter (fun e => (key3_country (fst e) =? c) && (key3_date (fst e) =? t))
                         agg_data)).
Proof.
  intros Hin. unfold agg_by_date in Hin.
  apply (groupby_sum_value F Z.compare Z.compare_eq_iff Z_compare_antisym Z_compare_trans)
    in Hin.
  rewrite Hin. unfold same_key. rewrite filter_map_comm, map_map, filter_filter.
  cbn [fst snd]. f_equal. f_equal. apply filter_ext. intros e. f_equal.
  now rewrite Z.eqb_compare.
Qed.

(** The total of an invoice is the sum of the prices of its rows, in row
    order. *)
Lemma agg_by_invoice_value (data : list (Row Timestamp Z num)) k v :
  In (k, v) (agg_by_invoice F data) ->
  v = sum_values F
        (map total_price
             (filter (fun r => match key3_compare (key3 r) k with Eq => true | _ => false end)
                     data)).
Proof.
  intros Hin. unfold agg_by_invoice in Hin.
  apply (groupby_sum_value F key3_compare key3_compare_eq key3_compare_antisym
           key3_compare_trans) in Hin.
  rewrite Hin. unfold same_key. rewrite filter_map_comm, map_map. reflexivity.
Qed.

Lemma agg_by_date_codes (data : list (Row Timestamp Z num)) c :
  is_code c = true ->
  agg_by_date F (agg_by_invoice F (filter (fun r => is_code (country r)) data)) c
  = agg_by_date F (agg_by_invoice F data) c.
Proof.
  intros Hc. rewrite !agg_by_date_country, filter_filter.
  do 4 f_equal. apply filter_ext. intros r.
  destruct (country r =? c) eqn:E; [|apply andb_false_r].
  apply Z.eqb_eq in E. rewrite E, Hc. reflexivity.
Qed.

Lemma series_empty (data : list (Row Timestamp Z num)) c :
  (forall r, In r data -> country r <> c) -> series F data c = [].
Proof.
  intros Hnone. unfold series. rewrite agg_by_date_country.
  rewrite filter_none; [reflexivity|].
  intros r Hr. apply Z.eqb_neq. now apply Hnone.
Qed.

Lemma series_nonempty (data : list (Row Timestamp Z num)) c :
  series F data c <> [] -> exists r, In r data /\ country r = c.
Proof.
  intros H. destruct (series F data c) as [|[t v] tl] eqn:E; [congruence|].
  assert (Ht : In t (map fst (agg_by_date F (agg_by_invoice F data) c))).
  { fold (series F data c). rewrite E. now left. }
  apply agg_by_date_timestamps in Ht. destruct Ht as (r & Hr & Hc & _). eauto.
Qed.

End SeriesFacts.

(** ** The aggregated table *)

Lemma in_combine_nth {A B} (l : list A) (l' : list B) x y dx dy :
  In (x, y) (combine l l') ->
  exists j, (j < List.length l)%nat /\ (j < List.length l')%nat
            /\ nth j l dx = x /\ nth j l' dy = y.
Proof.
  revert l'. induction l as [|a l IH]; intros [|b l'] H; simpl in H; try tauto.
  destruct H as [H | H].
  - injection H as <- <-. exists 0%nat. simpl. repeat split; lia.
  - destruct (IH l' H) as (j & H1 & H2 & H3 & H4).
    exists (S j). simpl. repeat split; auto; lia.
Qed.

Section TableFacts.

Variable F : Float.Arithmetic.

Local Abbreviation num := (Float.num F).

Lemma aggregate_country_rows (data : list (Row Timestamp Z num)) c :
  aggregate_country F (agg_by_invoice F data) c
  = match kept F data c with
    | [] => Raise AttributeError
    | _ => Ok (combine (map day_start (bin_days (kept F data c)))
                       (map (Float.rint F) (daily_totals F (kept F data c))))
    end.
Proof. apply aggregate_country_bins. Qed.

(** [aggregate_data] raises AttributeError when one of the three partitions is
    left without a value; otherwise it returns the rows of country 0, of
    country 1 and of country 2, numbered. *)
Lemma aggregate_data_cases (data : list (Row Timestamp Z num)) :
  aggregate_data F data
  = if some_partition_empty F data then Raise AttributeError
    else Ok (add_id_from F 0 (country_rows F data 0 ++ country_rows F data 1
                              ++ country_rows F data 2)).
Proof.
  unfold aggregate_data, some_partition_empty, country_rows.
  cbn [concat_countries existsb]. rewrite !aggregate_country_rows.
  destruct (kept F data 0); [reflexivity|];
    destruct (kept F data 1); [reflexivity|];
    destruct (kept F data 2); [reflexivity|].
  cbn [bind orb app]. now rewrite <- app_assoc.
Qed.

Lemma some_partition_empty_true (data : list (Row Timestamp Z num)) :
  some_partition_empty F data = true <-> exists c, In c [0; 1; 2] /\ kept F data c = [].
Proof.
  unfold some_partition_empty. rewrite existsb_exists. split.
  - intros (c & Hc & E). exists c. split; auto. now destruct (kept F data c).
  - intros (c & Hc & E). exists c. split; auto. now rewrite E.
Qed.

Lemma some_partition_empty_false (data : list (Row Timestamp Z num)) :
  some_partition_empty F data = false <-> forall c, In c [0; 1; 2] -> kept F data c <> [].
Proof.
  split.
  - intros H c Hc E.
    assert (some_partition_empty F data = true) by (apply some_partition_empty_true; eauto).
    congruence.
  - intros H. destruct (some_partition_empty F data) eqn:E; auto.
    apply some_partition_empty_true in E. destruct E as (c & Hc & E).
    now apply H in E.
Qed.

Lemma add_id_from_keys i (rows : list (Timestamp * num * Z)) :
  map out_key (add_id_from F i rows) = map (fun x => (snd x, fst (fst x))) rows.
Proof.
  revert i. induction rows as [|[[d p] c] rows IH]; intros i; simpl; auto.
  now rewrite IH.
Qed.

Lemma country_rows_keys (data : list (Row Timestamp Z num)) c :
  map (fun x : Timestamp * num * Z => (snd x, fst (fst x))) (country_rows F data c)
  = country_days F data c.
Proof.
  unfold country_rows, add_country, country_days.
  rewrite map_map. cbn [fst snd].
  rewrite <- (map_map fst (fun t => (c, t))).
  rewrite map_fst_combine, map_map; [reflexivity|].
  now rewrite !length_map, daily_totals_length.
Qed.

Lemma table_keys (data : list (Row Timestamp Z num)) :
  map out_key (add_id_from F 0 (country_rows F data 0 ++ country_rows F data 1
                                ++ country_rows F data 2))
  = country_days F data 0 ++ country_days F data 1 ++ country_days F data 2.
Proof. now rewrite add_id_from_keys, !map_app, !country_rows_keys. Qed.

Lemma country_days_In (data : list (Row Timestamp Z num)) c k :
  In k (country_days F data c) <->
  exists d, k = (c, day_start d) /\ In d (bin_days (kept F data c)).
Proof.
  unfold country_days. rewrite in_map_iff. split; intros (d & H1 & H2); eauto.
Qed.

Lemma country_days_NoDup (data : list (Row Timestamp Z num)) c :
  NoDup (country_days F data c).
Proof.
  unfold country_days. apply NoDup_map_injective; [|apply bin_days_NoDup].
  intros d d' _ _ H. inversion H. now apply day_start_injective.
Qed.

Lemma table_keys_NoDup (data : list (Row Timestamp Z num)) :
  NoDup (country_days F data 0 ++ country_days F data 1 ++ country_days F data 2).
Proof.
  apply NoDup_app; [apply country_days_NoDup | | ].
  - apply NoDup_app; [apply country_days_NoDup | apply country_days_NoDup |].
    intros k H1 H2. apply country_days_In in H1, H2.
    destruct H1 as (d1 & -> & _), H2 as (d2 & E & _). discriminate.
  - intros k H0 H12. apply country_days_In in H0. destruct H0 as (d & -> & _).
    apply in_app_or in H12.
    destruct H12 as [H | H]; apply country_days_In in H;
      destruct H as (d' & E & _); discriminate.
Qed.

Lemma In_out_key (out : list (AggRow num)) c t :
  (exists r, In r out /\ agg_country r = c /\ agg_invoice_date r = t)
  <-> In (c, t) (map out_key out).
Proof.
  rewrite in_map_iff. split.
  - intros (r & Hin & <- & <-). exists r. auto.
  - intros (r & E & Hin). inversion E. exists r. auto.
Qed.


Lemma add_id_from_ids i (rows : list (Timestamp * num * Z)) :
  map agg_id (add_id_from F i rows) = zrange i (List.length rows).
Proof.
  revert i. induction rows as [|[[d p] c] rows IH]; intros i; [reflexivity|].
  cbn [add_id_from map List.length]. now rewrite zrange_cons, IH.
Qed.

Lemma add_id_from_length i (rows : list (Timestamp * num * Z)) :
  List.length (add_id_from F i rows) = List.length rows.
Proof.
  revert i. induction rows as [|[[d p] c] rows IH]; intros i; simpl; auto.
Qed.

(** The total of a day on which the filter kept no value is 0.0. *)
Lemma gap_day_total (rows : list (Timestamp * num)) d p :
  (forall e, In e rows -> floor_day (fst e) <> d) ->
  In (day_start d, p)
     (combine (map day_start (bin_days rows)) (map (Float.rint F) (daily_totals F rows))) ->
  p = Float.zero F.
Proof.
  intros Hgap Hin.
  apply (in_combine_nth _ _ _ _ 0 (Float.rint F (Float.nan F))) in Hin.
  destruct Hin as (j & Hj & _ & Hd & Hp).
  rewrite length_map in Hj.
  rewrite (nth_indep _ 0 (day_start 0)) in Hd by now rewrite length_map.
  rewrite map_nth in Hd. apply day_start_injective in Hd.
  rewrite map_nth in Hp. rewrite <- Hp. unfold daily_totals.
  assert (Hbin : nth j (map (bin_sum F rows) (bin_days rows)) (Float.nan F) = Float.zero F).
  { rewrite (nth_indep _ _ (bin_sum F rows 0)) by now rewrite length_map.
    rewrite map_nth, Hd. unfold bin_sum. rewrite filter_none; [reflexivity|].
    intros e He. apply Z.eqb_neq. now apply Hgap. }
  rewrite interpolate_present.
  - rewrite Hbin. apply Float.rint_zero.
  - now rewrite length_map.
  - rewrite Hbin. apply Float.isna_zero.
Qed.

End TableFacts.

(** ** Sums without rounding *)

Lemma total_nil : Exact.total [] = 0%Q.
Proof. reflexivity. Qed.

Lemma total_cons (v : Exact.t) (l : list Exact.t) :
  Exact.total (v :: l) = (Exact.value v + Exact.total l)%Q.
Proof. reflexivity. Qed.

Lemma total_app (l l' : list Exact.t) :
  (Exact.total (l ++ l') == Exact.total l + Exact.total l')%Q.
Proof.
  induction l as [|v l IH]; cbn [app].
  - rewrite total_nil. ring.
  - rewrite !total_cons, IH. ring.
Qed.

Lemma total_Permutation (l l' : list Exact.t) :
  Permutation l l' -> (Exact.total l == Exact.total l')%Q.
Proof.
  induction 1 as [|v l l' _ IH|v w l|l l' l'' _ IH1 _ IH2].
  - reflexivity.
  - rewrite !total_cons, IH. reflexivity.
  - rewrite !total_cons. ring.
  - now rewrite IH1.
Qed.

(** Without rounding the compensation stays 0 and the sum is the total. *)
Lemma accumulate_exact (a c : Q) (v : Exact.t) :
  (c == 0)%Q ->
  exists q c', accumulate exact (Some a, Some c) v = (Some q, Some c')
               /\ (q == a + Exact.value v)%Q /\ (c' == 0)%Q.
Proof.
  intros Hc. destruct v as [b|]; cbn.
  - eexists _, _. split; [reflexivity|]. split; ring_simplify; rewrite ?Hc; ring.
  - exists a, c. split; [reflexivity|]. split; [ring | exact Hc].
Qed.

Lemma fold_accumulate_exact (l : list Exact.t) (a c : Q) :
  (c == 0)%Q ->
  exists q c', fold_left (accumulate exact) l (Some a, Some c) = (Some q, Some c')
               /\ (q == a + Exact.total l)%Q /\ (c' == 0)%Q.
Proof.
  revert a c. induction l as [|v l IH]; intros a c Hc; cbn [fold_left].
  - exists a, c. split; [reflexivity|]. split; [rewrite total_nil; ring | exact Hc].
  - destruct (accumulate_exact a c v Hc) as (q & c' & -> & Hq & Hc').
    destruct (IH q c' Hc') as (q' & c'' & -> & Hq' & Hc''). exists q', c''.
    split; [reflexivity|]. split; [|exact Hc''].
    rewrite Hq', Hq, total_cons. ring.
Qed.

Lemma sum_values_exact (l : list Exact.t) :
  exists q, sum_values exact l = Some q /\ (q == Exact.total l)%Q.
Proof.
  destruct (fold_accumulate_exact l 0 0 (Qeq_refl 0)) as (q & c & E & Hq & _).
  exists q. split; [|rewrite Hq; ring].
  change (sum_values exact l)
    with (fst (fold_left (accumulate exact) l (Some 0%Q, Some 0%Q))).
  now rewrite E.
Qed.

Lemma sum_groups_total {K} (groups : list (K * list Exact.t)) :
  (Exact.total (map (fun g => sum_values exact (snd g)) groups)
   == Exact.total (flat_map snd groups))%Q.
Proof.
  induction groups as [|[k vs] tl IH]; cbn [map flat_map snd].
  - reflexivity.
  - rewrite total_cons, total_app, IH.
    destruct (sum_values_exact vs) as (q & E & Hq).
    change (Float.num exact) with Exact.t in *. rewrite E. cbn [Exact.value].
    rewrite Hq. reflexivity.
Qed.

Section ExactGroups.

Context {K : Type}.
Variable cmp : K -> K -> comparison.
Variable P : K -> bool.

Hypothesis cmp_eq : forall a b, cmp a b = Eq <-> a = b.
Hypothesis cmp_antisym : forall a b, cmp a b = CompOpp (cmp b a).
Hypothesis cmp_trans : forall a b c, cmp a b = Lt -> cmp b c = Lt -> cmp a c = Lt.

Lemma groupby_sum_present (rows : list (K * Exact.t)) :
  Forall (fun e => Exact.isna (snd e) = false) (groupby_sum exact cmp rows).
Proof.
  unfold groupby_sum. apply Forall_forall. intros e He. apply in_map_iff in He.
  destruct He as ([k vs] & <- & _). cbn [fst snd].
  destruct (sum_values_exact vs) as (q & E & _).
  change (Float.num exact) with Exact.t in *. now rewrite E.
Qed.

(** Grouping keeps the total of the selected rows. *)
Lemma selected_total_groupby_sum (rows : list (K * Exact.t)) :
  (Exact.total (map snd (select P (groupby_sum exact cmp rows)))
   == Exact.total (map snd (select P rows)))%Q.
Proof.
  rewrite (select_groupby_sum exact cmp cmp_eq cmp_antisym cmp_trans).
  unfold groupby_sum. rewrite map_map. cbn [snd].
  rewrite sum_groups_total.
  apply total_Permutation, (group_rows_Permutation cmp).
Qed.

End ExactGroups.

(** For every selection of timestamps, the totals handed to the Outlier
    Filter add up to the prices of the rows of the country at the selected
    timestamps. *)
Lemma agg_by_date_exact_total (data : list (Row Timestamp Z Exact.t)) c (P : Timestamp -> bool) :
  (Exact.total (map snd (select P (agg_by_date exact (agg_by_invoice exact data) c)))
   == Exact.total (map total_price
                       (filter (fun r => (country r =? c) && P (invoice_date r)) data)))%Q.
Proof.
  rewrite agg_by_date_country.
  etransitivity;
    [apply (selected_total_groupby_sum Z.compare P Z.compare_eq_iff Z_compare_antisym
              Z_compare_trans)|].
  unfold select at 1. unfold date_price at 1.
  rewrite filter_map_comm, map_map. cbn [fst snd].
  etransitivity;
    [apply (selected_total_groupby_sum key3_compare (fun k => P (key3_date k))
              key3_compare_eq key3_compare_antisym key3_compare_trans)|].
  unfold select. rewrite filter_map_comm, map_map, filter_filter. reflexivity.
Qed.

Lemma agg_by_date_exact_present (data : list (Row Timestamp Z Exact.t)) c t v :
  In (t, v) (agg_by_date exact (agg_by_invoice exact data) c) -> exists q, v = Some q.
Proof.
  intros Hin. pose proof (groupby_sum_present Z.compare
    (map (fun r : Key3 * Exact.t => (key3_date (fst r), snd r))
         (filter (fun r => key3_country (fst r) =? c) (agg_by_invoice exact data)))) as H.
  rewrite Forall_forall in H. specialize (H _ Hin). cbn in H.
  destruct v as [q|]; [eauto | discriminate].
Qed.

(** Without rounding, the total of a timestamp is the sum of the prices of the
    rows of the country at that timestamp. *)
Lemma agg_by_date_exact_value (data : list (Row Timestamp Z Exact.t)) c t v :
  In (t, v) (agg_by_date exact (agg_by_invoice exact data) c) ->
  Exact.same v
    (sum_values exact
       (map total_price
            (filter (fun r => (country r =? c) && (invoice_date r =? t)) data))).
Proof.
  intros Hin.
  destruct (agg_by_date_exact_present data c t v Hin) as (q & ->).
  pose proof (select_single (W := Exact.t) Z.compare Z.compare_eq_iff
                (fun k => k =? t) t (Some q)
                (agg_by_date exact (agg_by_invoice exact data) c)
                (fun k => Z.eqb_eq k t)
                (agg_by_date_ascending exact (agg_by_invoice exact data) c) Hin) as Hsel.
  pose proof (agg_by_date_exact_total data c (fun k => k =? t)) as Htot.
  change (Float.num exact) with Exact.t in *. unfold Timestamp in *. cbv beta in Htot.
  rewrite Hsel in Htot. cbn [map snd] in Htot.
  rewrite total_cons, total_nil in Htot. cbn [Exact.value] in Htot.
  destruct (sum_values_exact
              (map total_price
                   (filter (fun r => (country r =? c) && (invoice_date r =? t)) data)))
    as (s & -> & Hs).
  cbn. rewrite Hs, <- Htot. ring.
Qed.


(** ** The Outlier Filter *)

(** C3. The Outlier Filter computes the 0.25 and the 0.75 quantile of the
    whole input series once, the interquartile range and the two bounds
    [Q1 - 3 * IQR] and [Q3 + 3 * IQR] (each operation in the arithmetic of the
    code), and keeps exactly the rows whose value is a number neither below the
    lower bound nor above the upper bound: a value equal to a computed bound is
    not removed. The rows kept are rows of the input, unchanged and in their
    order (none is clamped). In binary64: on the series 10, 12, 11, 13, 1000 of
    the specification the quartiles are 11 and 13 and only 1000 is removed; on
    [bound_series] the upper bound is 19 and the value 19 is kept; on
    [rounded_series] the computed upper bound is 1.4999999999999998, the
    number below 1.5, and 1.5 is removed; the filter applied to
    [two_pass_series] keeps 100, which a second application would remove. *)
Theorem iqr_outlier_removal_single_pass (F : Float.Arithmetic)
  (agg_data : list (Timestamp * Float.num F)) :
  let col := map snd agg_data in
  let q1 := quantile F (quarter F) col in
  let q3 := quantile F (three_quarters F) col in
  let iqr := Float.sub F q3 q1 in
  let lower_bound := Float.sub F q1 (Float.mul F (Float.of_Z F 3) iqr) in
  let upper_bound := Float.add F q3 (Float.mul F (Float.of_Z F 3) iqr) in
  (forall r,
      In r (iqr_outlier_removal F agg_data) <->
      In r agg_data /\ Float.isna F (snd r) = false
      /\ Float.ltb F (snd r) lower_bound = false
      /\ Float.ltb F upper_bound (snd r) = false)
  /\ iqr_outlier_removal F agg_data
     = filter (fun r => negb (Float.ltb F (snd r) lower_bound
                              || Float.ltb F upper_bound (snd r))
                        && negb (Float.isna F (snd r))) agg_data
  /\ (quantile binary64 (quarter binary64) (map snd spec_series) = 11%float
      /\ quantile binary64 (three_quarters binary64) (map snd spec_series) = 13%float
      /\ iqr_outlier_removal binary64 spec_series = at_minutes [10; 12; 11; 13]%float)
  /\ (iqr_bounds binary64 (map snd bound_series) = ((-9)%float, 19%float)
      /\ iqr_outlier_removal binary64 bound_series = bound_series)
  /\ (snd (iqr_bounds binary64 (map snd rounded_series)) = 0x1.7ffffffffffffp+0%float
      /\ iqr_outlier_removal binary64 rounded_series = firstn 4 rounded_series)
  /\ (In (5, 100%float) (iqr_outlier_removal binary64 two_pass_series)
      /\ ~ In (5, 100%float)
              (iqr_outlier_removal binary64 (iqr_outlier_removal binary64 two_pass_series))).
Proof.
  intros col q1 q3 iqr lower_bound upper_bound.
  assert (E : iqr_outlier_removal F agg_data
              = filter (fun r => negb (Float.ltb F (snd r) lower_bound
                                       || Float.ltb F upper_bound (snd r))
                                 && negb (Float.isna F (snd r))) agg_data).
  { apply iqr_outlier_removal_filter. }
  split; [|split; [exact E|]].
  - intros r. rewrite E, filter_In, andb_true_iff, !negb_true_iff, orb_false_iff. tauto.
  - split; [repeat split; vm_compute; reflexivity|].
    split; [split; vm_compute; reflexivity|].
    split; [split; vm_compute; reflexivity|].
    split.
    + vm_compute. auto 10.
    + vm_compute. intros H. repeat (destruct H as [H | H]; [discriminate H|]). exact H.
Qed.

(** ** The series the Outlier Filter is given *)

(** C2, as stated, fails: the two records of [same_day_records] keep their
    time of day through [cast_columns], and the series handed to the Outlier
    Filter holds two values for the one calendar day 2010-12-01, one per
    timestamp. *)
Lemma outlier_filter_input_two_values_one_day :
  (data <- cast_columns (rename_columns same_day_records) ;;
   encode_country_column
     (filter_countries data ["United Kingdom"; "France"; "Germany"]%string))
  = Ok same_day_rows
  /\ agg_by_date binary64 (agg_by_invoice binary64 same_day_rows) 0
  = [ (timestamp_of 2010 12 1 8 26, 10%float); (timestamp_of 2010 12 1 8 28, 20%float) ]
  /\ map (fun e => floor_day (fst e))
         (agg_by_date binary64 (agg_by_invoice binary64 same_day_rows) 0)
     = [ days_from_civil 2010 12 1; days_from_civil 2010 12 1 ].
Proof. split; [|split]; vm_compute; reflexivity. Qed.

(** C2, amended. Before the Outlier Filter is applied, the totals of a country
    are re-grouped by invoice timestamp (date and time of day, to the minute):
    the series given to the filter has strictly increasing timestamps, one
    entry for each distinct timestamp among the rows of the country, whose value
    is the sum of the totals of the invoices of the country at that timestamp,
    each the sum of the prices of the rows of the invoice. The totals per
    calendar day are formed after the filter, by the daily resampling of the
    values the filter kept (an error when it kept none). Without rounding, the
    value of a timestamp is the sum of the prices of the rows of the country at
    that timestamp. *)
Theorem outlier_filter_input_per_timestamp (F : Float.Arithmetic)
  (data : list (Row Timestamp Z (Float.num F))) (c : Z) :
  let series := agg_by_date F (agg_by_invoice F data) c in
  StronglySorted Z.lt (map fst series)
  /\ (forall t, In t (map fst series) <->
                exists r, In r data /\ country r = c /\ invoice_date r = t)
  /\ (forall t v, In (t, v) series ->
        v = sum_values F
              (map snd (filter (fun e => (key3_country (fst e) =? c)
                                         && (key3_date (fst e) =? t))
                               (agg_by_invoice F data))))
  /\ (forall k v, In (k, v) (agg_by_invoice F data) ->
        v = sum_values F
              (map total_price
                   (filter (fun r => match key3_compare (key3 r) k with
                                     | Eq => true
                                     | _ => false
                                     end) data)))
  /\ aggregate_country F (agg_by_invoice F data) c
     = match iqr_outlier_removal F series with
       | [] => Raise AttributeError
       | _ => Ok (combine (map day_start (bin_days (iqr_outlier_removal F series)))
                          (map (Float.rint F)
                               (interpolate F
                                  (map (bin_sum F (iqr_outlier_removal F series))
                                       (bin_days (iqr_outlier_removal F series))))))
       end
  /\ (forall (rows : list (Row Timestamp Z Exact.t)) t v,
        In (t, v) (agg_by_date exact (agg_by_invoice exact rows) c) ->
        Exact.same v
          (sum_values exact
             (map total_price
                  (filter (fun r => (country r =? c) && (invoice_date r =? t)) rows)))).
Proof.
  intros series. split; [|split; [|split; [|split; [|split]]]].
  - apply ascending_Z_sorted, agg_by_date_ascending.
  - apply agg_by_date_timestamps.
  - apply agg_by_date_value.
  - apply agg_by_invoice_value.
  - apply aggregate_country_bins.
  - intros rows. apply agg_by_date_exact_value.
Qed.

(** ** The aggregated table *)

(** C4, as stated, fails. On [three_country_records] the earliest observed
    date of the United Kingdom (country 0) is 2011-01-01 and four of its
    observations survive the Outlier Filter, yet the output has no row of
    country 0 for 2011-01-01: it starts on 2011-01-02, the day of the earliest
    surviving observation. On [outlier_first_day_records], where France and
    Germany have no record, no table is returned at all: the call raises
    AttributeError. *)
Lemma daily_rows_miss_removed_first_day :
  (data <- cast_columns (rename_columns three_country_records) ;;
   encode_country_column
     (filter_countries data ["United Kingdom"; "France"; "Germany"]%string))
  = Ok three_country_rows
  /\ In (mkRow "i1"%string (timestamp_of 2011 1 1 9 0) 1000%float 0) three_country_rows
  /\ kept binary64 three_country_rows 0
     = [ (timestamp_of 2011 1 2 9 0, 10%float); (timestamp_of 2011 1 3 9 0, 12%float);
         (timestamp_of 2011 1 4 9 0, 11%float); (timestamp_of 2011 1 5 9 0, 13%float) ]
  /\ transform binary64 three_country_records
     = Ok [ mkAggRow (timestamp_of 2011 1 2 0 0) 10%float 0 0;
            mkAggRow (timestamp_of 2011 1 3 0 0) 12%float 0 1;
            mkAggRow (timestamp_of 2011 1 4 0 0) 11%float 0 2;
            mkAggRow (timestamp_of 2011 1 5 0 0) 13%float 0 3;
            mkAggRow (timestamp_of 2011 1 1 0 0) 5%float 1 4;
            mkAggRow (timestamp_of 2011 1 2 0 0) 7%float 2 5 ]
  /\ aggregate_data binary64 three_country_rows
     = transform binary64 three_country_records
  /\ transform binary64 outlier_first_day_records = Raise AttributeError
  /\ aggregate_data binary64 outlier_first_day_rows = Raise AttributeError.
Proof.
  split; [vm_compute; reflexivity|].
  split; [left; reflexivity|].
  repeat split; vm_compute; reflexivity.
Qed.

(** C4, amended. A table is returned exactly when each of the country codes
    0, 1 and 2 has a value that survived the Outlier Filter; otherwise the call
    raises AttributeError. In a returned table, for each country code the
    output holds a row for the calendar day [d] exactly when [d] lies between
    the day of some value of that country that survived the filter and the day
    of some other such value, that is in the inclusive range from the earliest
    to the latest surviving date; every row is labelled by the midnight of a
    day; and no (country, date) pair occurs twice. Every surviving value is at
    a timestamp observed for that country, so no day lies outside the observed
    range. *)
Theorem daily_rows_cover_kept_range (F : Float.Arithmetic)
  (data : list (Row Timestamp Z (Float.num F))) :
  match aggregate_data F data with
  | Ok out =>
      (forall c, In c [0; 1; 2] -> kept F data c <> [])
      /\ (forall c d, In c [0; 1; 2] ->
            ((exists r, In r out /\ agg_country r = c /\ agg_invoice_date r = day_start d)
             <-> (exists a b, In a (kept F data c) /\ In b (kept F data c)
                              /\ floor_day (fst a) <= d <= floor_day (fst b))))
      /\ (forall r, In r out -> exists d, agg_invoice_date r = day_start d)
      /\ NoDup (map out_key out)
  | Raise e =>
      e = AttributeError /\ exists c, In c [0; 1; 2] /\ kept F data c = []
  end
  /\ (forall c a, In a (kept F data c) ->
        exists r, In r data /\ country r = c /\ invoice_date r = fst a).
Proof.
  split.
  - rewrite aggregate_data_cases.
    destruct (some_partition_empty F data) eqn:E.
    + split; [reflexivity | now apply some_partition_empty_true].
    + split; [now apply some_partition_empty_false | split; [|split]].
      * intros c d Hc. rewrite In_out_key, table_keys, <- bin_days_In.
        rewrite !in_app_iff, !country_days_In.
        split.
        -- intros [H | [H | H]]; destruct H as (d' & E' & Hd); inversion E'; subst;
             apply day_start_injective in H1; now subst.
        -- intros Hd. simpl in Hc.
           destruct Hc as [<- | [<- | [<- | []]]]; [left | right; left | right; right];
             eauto.
      * intros r Hr.
        assert (Hk : In (out_key r)
                        (map out_key (add_id_from F 0
                           (country_rows F data 0 ++ country_rows F data 1
                            ++ country_rows F data 2)))) by now apply in_map.
        rewrite table_keys, !in_app_iff, !country_days_In in Hk.
        destruct Hk as [H | [H | H]]; destruct H as (d & E' & _); inversion E'; eauto.
      * rewrite table_keys. apply table_keys_NoDup.
  - intros c a Ha. apply (agg_by_date_timestamps F).
    apply in_map. unfold kept in Ha. now apply iqr_outlier_removal_In in Ha.
Qed.

(** X1. The ids of a returned table are 0, 1, ..., N - 1 in row order, N the
    number of rows. *)
Theorem aggregate_data_ids (F : Float.Arithmetic)
  (data : list (Row Timestamp Z (Float.num F))) :
  match aggregate_data F data with
  | Ok out => map agg_id out = zrange 0 (List.length out)
  | Raise e => e = AttributeError
  end.
Proof.
  rewrite aggregate_data_cases. destruct (some_partition_empty F data); [reflexivity|].
  now rewrite add_id_from_length, add_id_from_ids.
Qed.


(** ** Days without a value *)

(** C1. What the code does on a day without a value: the daily bins are
    summed before [interpolate] is called, the sum of an empty bin is 0.0 and
    not NaN, so [interpolate] finds nothing to fill there. On [gap_example] the
    United Kingdom has invoices on 2011-01-01 and 2011-01-03 only, and its row
    for 2011-01-02 has total_price 0 (the specification says 15.0); in general every
    day of the range on which no value survived has total_price 0. On the
    two-row example of the specification itself no table is returned: France
    and Germany have no record, and the call raises AttributeError. *)
Theorem gap_day_total_is_zero :
  transform binary64 gap_example
  = Ok [ mkAggRow (timestamp_of 2011 1 1 0 0) 10%float 0 0;
         mkAggRow (timestamp_of 2011 1 2 0 0) 0%float 0 1;
         mkAggRow (timestamp_of 2011 1 3 0 0) 20%float 0 2;
         mkAggRow (timestamp_of 2011 1 1 0 0) 5%float 1 3;
         mkAggRow (timestamp_of 2011 1 2 0 0) 7%float 2 4 ]
  /\ transform binary64 spec_example = Raise AttributeError
  /\ (forall (F : Float.Arithmetic) (data : list (Row Timestamp Z (Float.num F))) c d p rows,
         aggregate_country F (agg_by_invoice F data) c = Ok rows ->
         (forall e, In e (kept F data c) -> floor_day (fst e) <> d) ->
         In (day_start d, p) rows ->
         p = Float.zero F).
Proof.
  split; [vm_compute; reflexivity | split; [vm_compute; reflexivity|]].
  intros F data c d p rows Hrows Hgap Hin.
  rewrite aggregate_country_rows in Hrows.
  destruct (kept F data c) as [|r0 tl] eqn:E; [discriminate|].
  injection Hrows as <-. now apply (gap_day_total F (r0 :: tl) d p).
Qed.

(** ** Empty partitions *)

(** C9, as stated, fails: when the allow-list matches no record
    ([unmatched_example] holds records of Spain only), the encoding returns the
    empty table and the Daily Aggregator raises AttributeError; so it does on
    [same_day_rows], where the codes 1 and 2 have no row. *)
Lemma unmatched_allow_list_raises :
  (data <- cast_columns (rename_columns unmatched_example) ;;
   encode_country_column
     (filter_countries data ["United Kingdom"; "France"; "Germany"]%string))
  = Ok []
  /\ aggregate_data binary64 [] = Raise AttributeError
  /\ transform binary64 unmatched_example = Raise AttributeError
  /\ aggregate_data binary64 same_day_rows = Raise AttributeError.
Proof. repeat split; vm_compute; reflexivity. Qed.

(** C9, amended. For a country code 0, 1 or 2 that no row carries, the
    quantile computation and the outlier removal do not raise (the series is
    empty, its quantiles are NaN, nothing is marked and the filter returns the
    empty table), but the daily resampling of the empty table raises
    AttributeError: the partition contributes no table of zero rows, and the
    Daily Aggregator returns no table. So it is when the allow-list matches no
    record: the encoding returns the empty table and the aggregation of the
    empty table raises AttributeError. *)
Theorem empty_partition_raises (F : Float.Arithmetic)
  (data : list (Row Timestamp Z (Float.num F))) (c : Z)
  (Hcode : In c [0; 1; 2])
  (Hnone : forall r, In r data -> country r <> c) :
  agg_by_date F (agg_by_invoice F data) c = []
  /\ quantile F (quarter F) (map snd (agg_by_date F (agg_by_invoice F data) c)) = Float.nan F
  /\ quantile F (three_quarters F) (map snd (agg_by_date F (agg_by_invoice F data) c))
     = Float.nan F
  /\ iqr_outlier_removal F (agg_by_date F (agg_by_invoice F data) c) = []
  /\ resample_sum F (iqr_outlier_removal F (agg_by_date F (agg_by_invoice F data) c))
     = Raise AttributeError
  /\ aggregate_country F (agg_by_invoice F data) c = Raise AttributeError
  /\ aggregate_data F data = Raise AttributeError
  /\ (forall (raw : list (Row Timestamp string (Float.num F))) country_list,
         (forall r, In r raw -> isin country_list (country r) = false) ->
         encode_country_column (filter_countries raw country_list) = Ok []
         /\ aggregate_data F [] = Raise AttributeError).
Proof.
  pose proof (series_empty F data c Hnone) as E. unfold series in E.
  assert (Hk : kept F data c = []) by (unfold kept, series; now rewrite E).
  unfold aggregate_country. rewrite E.
  split; [reflexivity|]. split; [reflexivity|]. split; [reflexivity|].
  split; [reflexivity|]. split; [reflexivity|]. split; [reflexivity|].
  split.
  - rewrite aggregate_data_cases.
    rewrite (proj2 (some_partition_empty_true F data)); [reflexivity|]. eauto.
  - intros raw country_list Hraw. unfold filter_countries.
    rewrite filter_none by assumption. split; reflexivity.
Qed.

(** C9 at a table whose only row is of country 0, for the country code 1. *)
Lemma empty_partition_raises_witness :
  aggregate_data binary64 [mkRow "536365"%string (timestamp_of 2010 12 1 8 26) 10%float 0]
  = Raise AttributeError.
Proof.
  apply (empty_partition_raises binary64
           [mkRow "536365"%string (timestamp_of 2010 12 1 8 26) 10%float 0] 1).
  - right. left. reflexivity.
  - intros r [<- | []]. simpl. discriminate.
Defined.

(** ** Country codes of the output *)

(** C10. Every row of a returned table has country 0, 1 or 2, and the input
    rows whose code is another number have no part in the result: without them
    the call returns the same table, or raises the same error. *)
Theorem aggregate_data_codes (F : Float.Arithmetic)
  (data : list (Row Timestamp Z (Float.num F))) :
  match aggregate_data F data with
  | Ok out => forall r, In r out -> In (agg_country r) [0; 1; 2]
  | Raise e => e = AttributeError
  end
  /\ aggregate_data F data
     = aggregate_data F (filter (fun r => existsb (Z.eqb (country r)) [0; 1; 2]) data).
Proof.
  split.
  - rewrite aggregate_data_cases. destruct (some_partition_empty F data); [reflexivity|].
    intros r Hr.
    assert (Hk : In (out_key r)
                    (map out_key (add_id_from F 0
                       (country_rows F data 0 ++ country_rows F data 1
                        ++ country_rows F data 2)))) by now apply in_map.
    rewrite table_keys, !in_app_iff, !country_days_In in Hk.
    destruct Hk as [H | [H | H]]; destruct H as (d & E & _); inversion E as [[Hc Hd]];
      simpl; auto.
  - change (fun r : Row Timestamp Z (Float.num F) => existsb (Z.eqb (country r)) [0; 1; 2])
      with (fun r : Row Timestamp Z (Float.num F) => is_code (country r)).
    rewrite !aggregate_data_cases.
    unfold some_partition_empty, country_rows, daily_totals. cbn [existsb].
    unfold kept, series. rewrite !agg_by_date_codes by reflexivity. reflexivity.
Qed.


(** ** The order of the aggregated table *)

Lemma StronglySorted_app {A} (R : A -> A -> Prop) (l1 l2 : list A) :
  StronglySorted R l1 -> StronglySorted R l2 ->
  (forall a b, In a l1 -> In b l2 -> R a b) ->
  StronglySorted R (l1 ++ l2).
Proof.
  induction 1 as [|a l1 Hs IH Ha]; intros H2 Hc; simpl; auto.
  constructor.
  - apply IH; auto. intros x y Hx Hy. apply Hc; simpl; auto.
  - apply Forall_app. split; auto.
    apply Forall_forall. intros b Hb. apply Hc; simpl; auto.
Qed.

Lemma zrange_sorted first len : StronglySorted Z.lt (zrange first len).
Proof.
  revert first. induction len as [|len IH]; intros first.
  - constructor.
  - rewrite zrange_cons. constructor; [apply IH|].
    apply Forall_forall. intros d Hd. apply zrange_In in Hd. lia.
Qed.

Lemma bin_days_sorted {V} (rows : list (Timestamp * V)) : StronglySorted Z.lt (bin_days rows).
Proof. destruct rows; [constructor | apply zrange_sorted]. Qed.

Lemma country_days_sorted (F : Float.Arithmetic) (data : list (Row Timestamp Z (Float.num F))) c :
  StronglySorted key_before (country_days F data c).
Proof.
  unfold country_days.
  induction (bin_days_sorted (kept F data c)) as [|d l Hs IH Hd]; simpl; constructor; auto.
  rewrite Forall_forall in *. intros k Hk. apply in_map_iff in Hk.
  destruct Hk as (d' & <- & Hd'). right. simpl. split; auto.
  apply Hd in Hd'. unfold day_start, minutes_per_day. lia.
Qed.

(** X10. A returned table is ordered by country code, and within a country by
    date, strictly: first all the days of country 0 in calendar order, then
    those of country 1, then those of country 2. *)
Theorem aggregate_data_sorted (F : Float.Arithmetic)
  (data : list (Row Timestamp Z (Float.num F))) :
  match aggregate_data F data with
  | Ok out => StronglySorted key_before (map out_key out)
  | Raise e => e = AttributeError
  end.
Proof.
  rewrite aggregate_data_cases. destruct (some_partition_empty F data); [reflexivity|].
  rewrite table_keys.
  apply StronglySorted_app; [apply country_days_sorted | |].
  - apply StronglySorted_app; try apply country_days_sorted.
    intros a b Ha Hb. apply country_days_In in Ha, Hb.
    destruct Ha as (d1 & -> & _), Hb as (d2 & -> & _). left. simpl. lia.
  - intros a b Ha Hb. apply country_days_In in Ha. destruct Ha as (d1 & -> & _).
    apply in_app_or in Hb.
    destruct Hb as [Hb | Hb]; apply country_days_In in Hb;
      destruct Hb as (d2 & -> & _); left; simpl; lia.
Qed.

(** ** The Country Partitioner *)

Lemma isin_In country_list c : isin country_list c = true <-> In c country_list.
Proof.
  unfold isin. rewrite existsb_exists. split.
  - intros (x & Hx & E). apply String.eqb_eq in E. now subst.
  - intros H. exists c. split; auto. apply String.eqb_refl.
Qed.

Lemma unseen_true seen y : unseen seen y = true <-> ~ In y seen.
Proof.
  unfold unseen. rewrite negb_true_iff. fold (isin seen y).
  rewrite <- isin_In. destruct (isin seen y); split; intros; congruence.
Qed.

Lemma distinct_count_step seen y p :
  ~ In y seen ->
  List.length (nodup string_dec (filter (unseen seen) (y :: p)))
  = S (List.length (nodup string_dec (filter (unseen (y :: seen)) p))).
Proof.
  intros Hy.
  change (S (List.length (nodup string_dec (filter (unseen (y :: seen)) p))))
    with (List.length (y :: nodup string_dec (filter (unseen (y :: seen)) p))).
  apply Permutation_length, NoDup_Permutation.
  - apply NoDup_nodup.
  - constructor; [|apply NoDup_nodup].
    rewrite nodup_In, filter_In, unseen_true. simpl. tauto.
  - intros z. rewrite nodup_In. simpl.
    rewrite (proj2 (unseen_true seen y) Hy). simpl.
    rewrite nodup_In, !filter_In, !unseen_true. simpl.
    destruct (string_dec y z); [subst; tauto | tauto].
Qed.

Lemma dict_get_enumerate_unique x l : forall seen i,
  ~ In x seen -> In x l ->
  dict_get (enumerate_from i (unique_from seen l)) x
  = Some (i + Z.of_nat (List.length
                          (nodup string_dec (filter (unseen seen) (prefix_before x l))))).
Proof.
  induction l as [|y tl IH]; intros seen i Hx Hin; [destruct Hin|].
  cbn [unique_from prefix_before].
  destruct (String.eqb y x) eqn:E.
  - apply String.eqb_eq in E. subst y.
    pose proof (proj2 (unseen_true seen x) Hx) as Hu. unfold unseen in Hu.
    apply negb_true_iff in Hu. rewrite Hu. simpl.
    rewrite String.eqb_refl. f_equal. lia.
  - assert (Hne : y <> x) by (now apply String.eqb_neq).
    assert (Hin' : In x tl) by (destruct Hin; [contradiction | assumption]).
    destruct (existsb (String.eqb y) seen) eqn:Hs.
    + rewrite IH by assumption. do 3 f_equal.
      cbn [filter]. unfold unseen at 2. rewrite Hs. reflexivity.
    + assert (Hy : ~ In y seen).
      { apply unseen_true. unfold unseen. now rewrite Hs. }
      cbn [enumerate_from dict_get]. rewrite E.
      rewrite IH; [| simpl; intros [? | ?]; [congruence | contradiction] | assumption].
      rewrite distinct_count_step by assumption. f_equal. lia.
Qed.

Lemma filter_unseen_nil l : filter (unseen []) l = l.
Proof. induction l as [|a l IH]; simpl; congruence. Qed.

Lemma country_mappings_first_seen l x :
  In x l ->
  dict_get (enumerate_from 0 (unique l)) x = Some (first_seen_position x l).
Proof.
  intros H. unfold unique, first_seen_position.
  rewrite dict_get_enumerate_unique by auto.
  rewrite filter_unseen_nil. reflexivity.
Qed.

Lemma prefix_before_incl x l : incl (prefix_before x l) l.
Proof.
  induction l as [|y tl IH]; simpl; [easy|].
  destruct (String.eqb y x); [easy|].
  intros z [-> | Hz]; simpl; auto.
Qed.

Lemma prefix_before_notin x l : ~ In x (prefix_before x l).
Proof.
  induction l as [|y tl IH]; simpl; auto.
  destruct (String.eqb y x) eqn:E; simpl; auto.
  apply String.eqb_neq in E. tauto.
Qed.

Lemma first_seen_position_bound x l :
  In x l ->
  0 <= first_seen_position x l < Z.of_nat (List.length (nodup string_dec l)).
Proof.
  intros Hx. unfold first_seen_position. split; [lia|].
  assert (H : (List.length (x :: nodup string_dec (prefix_before x l))
               <= List.length (nodup string_dec l))%nat).
  { apply NoDup_incl_length.
    - constructor; [|apply NoDup_nodup].
      rewrite nodup_In. apply prefix_before_notin.
    - intros z [<- | Hz]; apply nodup_In; auto.
      apply nodup_In in Hz. now apply prefix_before_incl in Hz. }
  simpl in H. lia.
Qed.

Lemma to_int8_range z : -128 <= to_int8 z <= 127.
Proof. unfold to_int8. pose proof (Z.mod_pos_bound (z + 128) 256). lia. Qed.

Lemma to_int8_small z : -128 <= z <= 127 -> to_int8 z = z.
Proof. intros H. unfold to_int8. rewrite Z.mod_small; lia. Qed.

Lemma to_int8_wrap z : 128 <= z <= 255 -> to_int8 z = z - 256.
Proof.
  intros H. unfold to_int8.
  replace (z + 128) with ((z - 128) + 1 * 256) by lia.
  rewrite Z.mod_add, Z.mod_small; lia.
Qed.

(** The stored code and the position differ by a multiple of 256. *)
Lemma to_int8_congruent z : (to_int8 z - z) mod 256 = 0.
Proof.
  unfold to_int8.
  pose proof (Z.div_mod (z + 128) 256 ltac:(lia)) as H.
  replace ((z + 128) mod 256 - 128 - z) with (- ((z + 128) / 256) * 256) by lia.
  apply Z.mod_mul. lia.
Qed.

Lemma Forall2_map_self {A B} (R : A -> B -> Prop) (f : A -> B) (l : list A) :
  (forall a, R a (f a)) -> Forall2 R l (map f l).
Proof. intros H. induction l; simpl; constructor; auto. Qed.

Section PartitionerFacts.

Context {P : Type}.

Lemma encode_country_column_ok (data : list (Row Timestamp string P)) country_list :
  let s := filter_countries data country_list in
  encode_country_column s = Ok (map (encoded (map country (f_data s))) (f_data s)).
Proof.
  intros s. unfold encode_country_column.
  rewrite (mapM_ok _ (encoded (map country (f_data s)))); [reflexivity|].
  intros r Hr. unfold s at 1. cbn [filter_countries country_mappings].
  rewrite country_mappings_first_seen; [reflexivity|].
  apply in_map. exact Hr.
Qed.

End PartitionerFacts.

(** C5. The Country Partitioner keeps exactly the rows whose country name is
    a member of the allow-list (the same string, letter case included), in
    their order; the mapping gives each name of the filtered data its 0-indexed
    position of first appearance among the distinct names; and the encoded
    column holds that position stored as a signed 8-bit integer: for each row,
    the one number from -128 to 127 that differs from the position by a multiple
    of 256, which is the position itself when at most 128 distinct names
    survive and is 128 stored as -128, 255 as -1, 256 as 0. *)
Theorem country_partitioner_codes {P : Type}
  (data : list (Row Timestamp string P)) (country_list : list string) :
  let s := filter_countries data country_list in
  let names := map country (f_data s) in
  (forall r, In r (f_data s) <-> In r data /\ In (country r) country_list)
  /\ f_data s
     = filter (fun r => if in_dec string_dec (country r) country_list then true else false)
              data
  /\ isin ["United Kingdom"%string] "united kingdom"%string = false
  /\ (forall x, In x names ->
        dict_get (country_mappings s) x = Some (first_seen_position x names))
  /\ encode_country_column s
     = Ok (map (fun r => mkRow (invoice_id r) (invoice_date r) (total_price r)
                              (to_int8 (first_seen_position (country r) names)))
               (f_data s))
  /\ (exists rows,
        encode_country_column s = Ok rows
        /\ Forall2 (fun r r' =>
                      -128 <= country r' <= 127
                      /\ (country r' - first_seen_position (country r) names) mod 256 = 0)
                   (f_data s) rows)
  /\ (to_int8 127 = 127 /\ to_int8 128 = -128 /\ to_int8 255 = -1 /\ to_int8 256 = 0)
  /\ ((List.length (nodup string_dec names) <= 128)%nat ->
      forall x, In x names ->
        to_int8 (first_seen_position x names) = first_seen_position x names).
Proof.
  intros s names. split; [|split; [|split; [|split; [|split; [|split; [|split]]]]]].
  - intros r. unfold s, filter_countries. cbn [f_data].
    rewrite filter_In, isin_In. tauto.
  - unfold s, filter_countries. cbn [f_data]. apply filter_ext. intros r.
    destruct (in_dec string_dec (country r) country_list) as [H | H].
    + now apply isin_In.
    + destruct (isin country_list (country r)) eqn:E; auto.
      apply isin_In in E. contradiction.
  - reflexivity.
  - intros x Hx. unfold s at 1. cbn [filter_countries country_mappings].
    now apply country_mappings_first_seen.
  - apply encode_country_column_ok.
  - eexists. split; [apply encode_country_column_ok|].
    apply Forall2_map_self. intros r. cbn [encoded country].
    split; [apply to_int8_range | apply to_int8_congruent].
  - repeat split; reflexivity.
  - intros Hn x Hx. apply to_int8_small.
    pose proof (first_seen_position_bound x names Hx). lia.
Qed.

(** C6, as stated, fails: with 129 distinct countries, all on the allow-list,
    the encoding returns a table and raises nothing; the 129th country, at
    position 128, is stored as -128. *)
Lemma encode_129_countries_wraps :
  List.length (nodup string_dec
                 (map country (f_data (filter_countries many_countries
                                         (map country many_countries))))) = 129%nat
  /\ encode_country_column (filter_countries many_countries (map country many_countries))
     = Ok (map (fun i => mkRow "536365"%string (timestamp_of 2010 12 1 8 26) 1%float
                              (if (i <? 128)%nat then Z.of_nat i else -128))
               (seq 0 129)).
Proof. split; vm_compute; reflexivity. Qed.

(** C6, amended. However many distinct countries survive filtering, the
    encoding into 8 bits raises no error: it returns the table whose country
    column holds the first-seen positions cast to signed 8-bit integers, every
    one between -128 and 127; a position from 128 to 255 is stored wrapped
    around, as the position minus 256. *)
Theorem encode_country_column_wraps {P : Type}
  (data : list (Row Timestamp string P)) (country_list : list string) :
  let s := filter_countries data country_list in
  let names := map country (f_data s) in
  exists rows,
    encode_country_column s = Ok rows
    /\ map country rows = map (fun r => to_int8 (first_seen_position (country r) names))
                              (f_data s)
    /\ Forall (fun r => -128 <= country r <= 127) rows
    /\ (forall p, 128 <= p <= 255 -> to_int8 p = p - 256).
Proof.
  intros s names. eexists. split; [apply encode_country_column_ok | split; [|split]].
  - rewrite map_map. reflexivity.
  - apply Forall_forall. intros r Hr. apply in_map_iff in Hr.
    destruct Hr as (r0 & <- & _). apply to_int8_range.
  - apply to_int8_wrap.
Qed.

(** ** The country mapping *)

Lemma unique_from_In seen l x :
  In x (unique_from seen l) <-> In x l /\ ~ In x seen.
Proof.
  revert seen. induction l as [|y l IH]; intros seen; simpl; [tauto|].
  destruct (existsb (String.eqb y) seen) eqn:E.
  - assert (Hy : In y seen) by (apply isin_In; exact E).
    rewrite IH. split; [tauto|]. intros [[-> | H] Hn]; tauto.
  - assert (Hy : ~ In y seen).
    { intros H. apply isin_In in H. unfold isin in H. congruence. }
    simpl. rewrite IH. simpl. split.
    + intros [-> | [H1 H2]]; tauto.
    + intros [[-> | H] Hn]; [tauto|].
      destruct (string_dec y x); [tauto | right; tauto].
Qed.

Lemma unique_from_NoDup seen l : NoDup (unique_from seen l).
Proof.
  revert seen. induction l as [|y l IH]; intros seen; simpl; [constructor|].
  destruct (existsb (String.eqb y) seen); auto.
  constructor; auto. rewrite unique_from_In. simpl. tauto.
Qed.

Lemma enumerate_from_keys i l : map fst (enumerate_from i l) = l.
Proof. revert i. induction l as [|x l IH]; intros i; simpl; congruence. Qed.

Lemma enumerate_from_codes i l :
  map snd (enumerate_from i l) = zrange i (List.length l).
Proof.
  revert i. induction l as [|x l IH]; intros i; [reflexivity|].
  cbn [enumerate_from map List.length]. now rewrite zrange_cons, IH.
Qed.

Lemma dict_get_enumerate_decode l : forall i x j,
  dict_get (enumerate_from i l) x = Some j ->
  i <= j /\ nth_error l (Z.to_nat (j - i)) = Some x.
Proof.
  induction l as [|y l IH]; intros i x j; simpl; [discriminate|].
  destruct (String.eqb y x) eqn:E.
  - intros H. injection H as <-. apply String.eqb_eq in E. subst.
    rewrite Z.sub_diag. simpl. split; [lia | reflexivity].
  - intros H. apply IH in H. destruct H as [Hij Hn]. split; [lia|].
    replace (Z.to_nat (j - i)) with (S (Z.to_nat (j - (i + 1)))) by lia.
    exact Hn.
Qed.

Lemma dict_get_None d x : dict_get d x = None <-> ~ In x (map fst d).
Proof.
  induction d as [|[k v] d IH]; simpl; [tauto|].
  destruct (String.eqb k x) eqn:E.
  - apply String.eqb_eq in E. split; [discriminate | tauto].
  - apply String.eqb_neq in E. rewrite IH. tauto.
Qed.

(** X11. The mapping built by [filter_countries] pairs the country names of
    the filtered data, each once, with the codes 0, 1, ..., n - 1 in this
    order: a name is a key exactly when it occurs in the filtered data, a code
    leads back to its name (the name at that position among the keys), two names
    never share a code, and a name that does not occur has no code. *)
Theorem country_mappings_bijection {P : Type}
  (data : list (Row Timestamp string P)) (country_list : list string) :
  let s := filter_countries data country_list in
  let keys := map fst (country_mappings s) in
  NoDup keys
  /\ (forall x, In x keys <-> In x (map country (f_data s)))
  /\ map snd (country_mappings s) = zrange 0 (List.length keys)
  /\ (forall x i, dict_get (country_mappings s) x = Some i ->
                  nth_error keys (Z.to_nat i) = Some x)
  /\ (forall x y i, dict_get (country_mappings s) x = Some i ->
                    dict_get (country_mappings s) y = Some i -> x = y)
  /\ (forall x, dict_get (country_mappings s) x = None <->
                ~ In x (map country (f_data s))).
Proof.
  intros s keys.
  assert (Ek : keys = unique (map country (f_data s))).
  { unfold keys, s. cbn [filter_countries country_mappings f_data].
    apply enumerate_from_keys. }
  assert (Hin : forall x, In x keys <-> In x (map country (f_data s))).
  { intros x. rewrite Ek. unfold unique. rewrite unique_from_In. simpl. tauto. }
  assert (Hdec : forall x i, dict_get (country_mappings s) x = Some i ->
                             nth_error keys (Z.to_nat i) = Some x).
  { intros x i H. unfold s in H. cbn [filter_countries country_mappings] in H.
    apply dict_get_enumerate_decode in H. destruct H as [_ H].
    rewrite Z.sub_0_r in H. rewrite Ek. exact H. }
  split; [rewrite Ek; apply unique_from_NoDup
         | split; [exact Hin | split; [|split; [exact Hdec | split]]]].
  - rewrite Ek. unfold s. cbn [filter_countries country_mappings f_data].
    apply enumerate_from_codes.
  - intros x y i Hx Hy. apply Hdec in Hx, Hy. congruence.
  - intros x. rewrite dict_get_None. fold keys. now rewrite Hin.
Qed.

Lemma first_seen_position_injective l x y :
  In x l -> In y l -> first_seen_position x l = first_seen_position y l -> x = y.
Proof.
  intros Hx Hy E.
  pose proof (country_mappings_first_seen l x Hx) as Ex.
  pose proof (country_mappings_first_seen l y Hy) as Ey.
  rewrite E in Ex.
  apply dict_get_enumerate_decode in Ex, Ey. destruct Ex as [_ Ex], Ey as [_ Ey].
  congruence.
Qed.

Lemma filtered_names_allowed {P} (data : list (Row Timestamp string P)) country_list x :
  In x (map country (f_data (filter_countries data country_list))) -> In x country_list.
Proof.
  cbn [filter_countries f_data]. intros H. apply in_map_iff in H.
  destruct H as (r & <- & Hr). apply filter_In in Hr. now apply isin_In.
Qed.

Lemma in_combine_map {A B} (f : A -> B) (l : list A) p :
  In p (combine l (map f l)) -> In (fst p) l /\ snd p = f (fst p).
Proof.
  induction l as [|a l IH]; simpl; [tauto|].
  intros [<- | H]; [simpl; auto | apply IH in H; tauto].
Qed.

(** X12. With an allow-list of at most 128 names, the encoding returns the
    filtered rows in their order with invoice id, date and price unchanged, every
    code is at least 0 and below the length of the allow-list, and two rows get
    the same code exactly when they have the same country name. *)
Theorem encode_codes_below_allow_list {P : Type}
  (data : list (Row Timestamp string P)) (country_list : list string)
  (Hlen : (List.length country_list <= 128)%nat) :
  let s := filter_countries data country_list in
  exists rows,
    encode_country_column s = Ok rows
    /\ map invoice_id rows = map invoice_id (f_data s)
    /\ map invoice_date rows = map invoice_date (f_data s)
    /\ map total_price rows = map total_price (f_data s)
    /\ Forall (fun r => 0 <= country r < Z.of_nat (List.length country_list)) rows
    /\ (forall p q, In p (combine (f_data s) rows) -> In q (combine (f_data s) rows) ->
          (country (snd p) = country (snd q) <-> country (fst p) = country (fst q))).
Proof.
  intros s. set (names := map country (f_data s)).
  assert (Hcode : forall x, In x names ->
                    0 <= first_seen_position x names < Z.of_nat (List.length country_list)
                    /\ to_int8 (first_seen_position x names) = first_seen_position x names).
  { intros x Hx. pose proof (first_seen_position_bound x names Hx) as Hb.
    assert (Hn : (List.length (nodup string_dec names) <= List.length country_list)%nat).
    { apply NoDup_incl_length; [apply NoDup_nodup|].
      intros y Hy. apply nodup_In in Hy. now apply filtered_names_allowed in Hy. }
    split; [lia | apply to_int8_small; lia]. }
  exists (map (encoded names) (f_data s)).
  split; [apply encode_country_column_ok|].
  rewrite !map_map. cbn [encoded invoice_id invoice_date total_price].
  repeat (split; [reflexivity|]). split.
  - apply Forall_forall. intros r Hr. apply in_map_iff in Hr.
    destruct Hr as (a & <- & Ha). cbn [encoded country].
    assert (Hx : In (country a) names) by (apply in_map; exact Ha).
    destruct (Hcode _ Hx) as [Hb ->]. exact Hb.
  - intros p q Hp Hq. apply in_combine_map in Hp, Hq.
    destruct Hp as [Hp ->], Hq as [Hq ->]. cbn [encoded country].
    assert (Ha : In (country (fst p)) names) by (apply in_map; exact Hp).
    assert (Hb : In (country (fst q)) names) by (apply in_map; exact Hq).
    destruct (Hcode _ Ha) as [_ ->]. destruct (Hcode _ Hb) as [_ ->].
    split; [now apply first_seen_position_injective | now intros ->].
Qed.

(** X12 at the allow-list of the pipeline: the codes are 0, 1 and 2. *)
Lemma encode_codes_below_allow_list_witness :
  let s := filter_countries
             [mkRow "536370"%string (timestamp_of 2010 12 1 8 45) 3%float "France"%string;
              mkRow "536365"%string (timestamp_of 2010 12 1 8 26) 10%float
                    "United Kingdom"%string]
             ["United Kingdom"; "France"; "Germany"]%string in
  exists rows,
    encode_country_column s = Ok rows
    /\ map invoice_id rows = map invoice_id (f_data s)
    /\ map invoice_date rows = map invoice_date (f_data s)
    /\ map total_price rows = map total_price (f_data s)
    /\ Forall (fun r => 0 <= country r < 3) rows
    /\ (forall p q, In p (combine (f_data s) rows) -> In q (combine (f_data s) rows) ->
          (country (snd p) = country (snd q) <-> country (fst p) = country (fst q))).
Proof.
  apply (encode_codes_below_allow_list
           [mkRow "536370"%string (timestamp_of 2010 12 1 8 45) 3%float "France"%string;
            mkRow "536365"%string (timestamp_of 2010 12 1 8 26) 10%float
                  "United Kingdom"%string]
           ["United Kingdom"; "France"; "Germany"]%string).
  simpl. lia.
Defined.

(** X13. Filtering is idempotent: filtering the filtered data again with the
    same allow-list gives the same rows and the same mapping, so the codes do
    not change. *)
Theorem filter_countries_idempotent {P : Type}
  (data : list (Row Timestamp string P)) (country_list : list string) :
  filter_countries (f_data (filter_countries data country_list)) country_list
  = filter_countries data country_list.
Proof.
  unfold filter_countries. cbn [f_data].
  assert (E : filter (fun r => isin country_list (country r))
                (filter (fun r => isin country_list (country r)) data)
              = filter (fun r : Row Timestamp string P => isin country_list (country r))
                       data).
  { rewrite filter_filter. apply filter_ext. intros r. apply andb_diag. }
  now rewrite E.
Qed.
(** ** The Schema Validator *)

Section ValidationFacts.

Import Validation.
Local Open Scope string_scope.

Lemma column_of_four a b c d :
  col_name a = "id" -> col_name b = "invoice_date" ->
  col_name c = "country" -> col_name d = "total_price" ->
  column [a; b; c; d] "invoice_date" = Some b
  /\ column [a; b; c; d] "country" = Some c
  /\ column [a; b; c; d] "total_price" = Some d.
Proof.
  intros Ha Hb Hc Hd. unfold column. cbn [find]. rewrite Ha, Hb, Hc, Hd.
  repeat split; reflexivity.
Qed.

Ltac invert_Forall :=
  repeat match goal with
         | H : Forall _ (_ :: _) |- _ => inversion H; clear H; subst
         | H : Forall _ [] |- _ => clear H
         end.

Lemma declared_contract_plain t :
  Forall (satisfies t) declared_contract <-> contract_holds t.
Proof.
  unfold declared_contract, contract_holds. split.
  - intros H. invert_Forall. cbn [satisfies] in *.
    match goal with H : map col_name t = _ |- _ => rename H into Hnames end.
    destruct t as [|a [|b [|c [|d [|e t]]]]]; try discriminate Hnames.
    inversion Hnames as [[Ha Hb Hc Hd]].
    destruct (column_of_four a b c d Ha Hb Hc Hd) as (Eb & Ec & Ed).
    repeat match goal with
           | H : exists _, _ |- _ => destruct H
           | H : _ /\ _ |- _ => destruct H
           end.
    rewrite Eb in *. rewrite Ec in *. rewrite Ed in *.
    repeat match goal with
           | H : Some _ = Some _ |- _ => injection H as <-
           end.
    exists a, b, c, d. repeat (split; [solve [auto] |]).
    eexists. split; eauto.
  - intros (a & b & c & d & -> & Ha & Hb & Hc & Hd & Hdate & Hset & Hty & Hprice & Hfl
            & m & Hmin & Hm).
    destruct (column_of_four a b c d Ha Hb Hc Hd) as (Eb & Ec & Ed).
    repeat constructor; cbn [satisfies map]; try solve [eauto].
    + now rewrite Ha, Hb, Hc, Hd.
    + exists d, m. cbn [above below]. auto.
Qed.

(** C7. The suite holds eight expectations, none replaced by a later one, and
    the rules they state are exactly the eight of the declared contract: the
    table has 4 columns, they are id, invoice_date, country, total_price in
    this order, invoice_date has no missing value, the distinct values of
    country are within 0, 1, 2, country is stored as int8, total_price has no
    missing value, is stored as float64 and has a least value of 0 or more,
    0 included (no upper bound). A table passes the suite exactly when the
    contract holds of it. *)
Theorem suite_is_declared_contract :
  Permutation (map rule_of (expectations build_expectation_suite))
              (map Some declared_contract)
  /\ List.length (expectations build_expectation_suite) = 8%nat
  /\ (forall t, passes t build_expectation_suite <-> contract_holds t).
Proof.
  assert (Hperm : Permutation (map rule_of (expectations build_expectation_suite))
                              (map Some declared_contract)).
  { cbv [build_expectation_suite add_expectation expectations expectation_suite_name].
    unfold declared_contract. vm_compute.
    (* the suite's order: columns, count, date, set, type, min, type, null *)
    eapply perm_trans; [apply perm_swap|]. do 5 apply perm_skip.
    eapply perm_trans; [apply perm_swap|].
    eapply perm_trans; [apply perm_skip, perm_swap|].
    apply perm_swap. }
  split; [exact Hperm | split; [reflexivity|]].
  intros t. rewrite <- declared_contract_plain. unfold passes.
  assert (Hrules : Forall (fun e => exists r, rule_of e = Some r /\ satisfies t r)
                          (expectations build_expectation_suite)
                   <-> Forall (fun o => exists r, o = Some r /\ satisfies t r)
                              (map rule_of (expectations build_expectation_suite))).
  { rewrite Forall_map. reflexivity. }
  rewrite Hrules. split; intros H.
  - apply (Permutation_Forall Hperm) in H.
    rewrite Forall_map in H. revert H. apply Forall_impl.
    intros r (r' & E & Hr). now inversion E.
  - apply (Permutation_Forall (Permutation_sym Hperm)).
    rewrite Forall_map. revert H. apply Forall_impl. intros r Hr. eauto.
Qed.

End ValidationFacts.

(** ** Extraction *)

Section ExtractFacts.

Import Extract.
Local Open Scope string_scope.

(** C8, as stated, fails: a cached file that holds the header line and zero
    rows is read as a table of zero rows; the file is not deleted and no error
    is raised. *)
Lemma header_only_cache_is_kept :
  _extract_records_from_file DownloadRaises (mkWorld (Some (Lines [header])) [])
  = (Ok (Some (mkDataFrame header [])),
     mkWorld (Some (Lines [header])) [LogInfo; ReadCsv])
  /\ from_file DownloadRaises "carrie1/ecommerce-data" (mkWorld (Some (Lines [header])) [])
     = (Ok (mkDataFrame header [], mkMetadata "carrie1/ecommerce-data" 0),
        mkWorld (Some (Lines [header])) [LogInfo; ReadCsv]).
Proof. split; reflexivity. Qed.

(** C8, amended. When the cached raw file exists and is empty (it has no line
    to parse, not even a header), extraction deletes the cache file and raises
    ValueError to the caller, whatever a download would have done: nothing is
    downloaded in the run, and the deletion is the last event before the error
    reaches the caller, so the next run finds no cache file. When the cached
    file has a header line, with or without rows after it, it is kept and
    returned as a table. *)
Theorem empty_cache_is_purged (kaggle : DownloadOutcome) (path : string)
  (events : list Event) :
  _extract_records_from_file kaggle (mkWorld (Some (Lines [])) events)
  = (Raise ValueError, mkWorld None (events ++ [LogInfo; ReadCsv; Unlink]))
  /\ from_file kaggle path (mkWorld (Some (Lines [])) events)
     = (Raise ValueError, mkWorld None (events ++ [LogInfo; ReadCsv; Unlink]))
  /\ (forall head rows,
         _extract_records_from_file kaggle (mkWorld (Some (Lines (head :: rows))) events)
         = (Ok (Some (mkDataFrame head rows)),
            mkWorld (Some (Lines (head :: rows))) (events ++ [LogInfo; ReadCsv]))).
Proof.
  unfold from_file, _extract_records_from_file, try_read_csv, unlink, emit. cbn.
  rewrite <- !app_assoc. cbn. split; [reflexivity | split; [reflexivity|]].
  intros head rows. reflexivity.
Qed.

(** What reading the cache file gives, and what is left of the file. *)
Lemma try_read_csv_cases (w : World) :
  try_read_csv w
  = match cache_file w with
    | None => (Raise FileNotFoundError, mkWorld None (trace w ++ [ReadCsv]))
    | Some Undecodable =>
        (Raise UnicodeDecodeError, mkWorld (Some Undecodable) (trace w ++ [ReadCsv]))
    | Some Malformed =>
        (Raise ParserError, mkWorld (Some Malformed) (trace w ++ [ReadCsv]))
    | Some (Lines []) => (Raise ValueError, mkWorld None (trace w ++ [ReadCsv; Unlink]))
    | Some (Lines (head :: rows)) =>
        (Ok (Some (mkDataFrame head rows)),
         mkWorld (Some (Lines (head :: rows))) (trace w ++ [ReadCsv]))
    end.
Proof.
  destruct w as [[[| |[|head rows]]|] events]; unfold try_read_csv, unlink, emit; cbn;
    rewrite <- ?app_assoc; reflexivity.
Qed.

Lemma extract_cases (kaggle : DownloadOutcome) (w : World) :
  _extract_records_from_file kaggle w
  = match cache_file w, kaggle with
    | Some file, _ => try_read_csv (mkWorld (Some file) (trace w ++ [LogInfo]))
    | None, DownloadRaises =>
        (Ok None, mkWorld None (trace w ++ [LogInfo; Download; LogError]))
    | None, DownloadLeaves file =>
        try_read_csv (mkWorld file (trace w ++ [LogInfo; Download; LogInfo]))
    end.
Proof.
  destruct w as [file events]. unfold _extract_records_from_file, emit. cbn.
  destruct file as [file|]; [reflexivity|].
  destruct kaggle as [|file]; cbn; rewrite <- ?app_assoc; reflexivity.
Qed.

(** X16. What extraction returns and what it leaves in the cache: a returned
    table is exactly the content of the cache file left behind (header line,
    then rows); None is returned only when there was no cache file and the
    download raised, and then there is still none; ValueError is raised only
    for an empty file, after the file was deleted; a file that cannot be
    decoded or tokenized makes the call raise UnicodeDecodeError or ParserError
    and is left in the cache; FileNotFoundError is raised when there was no
    cache file and the download left none. *)
Theorem extraction_result_and_cache (kaggle : DownloadOutcome) (w : World) :
  let result := fst (_extract_records_from_file kaggle w) in
  let after := cache_file (snd (_extract_records_from_file kaggle w)) in
  let read file :=
    cache_file w = Some file \/ (cache_file w = None /\ kaggle = DownloadLeaves (Some file)) in
  match result with
  | Ok (Some df) =>
      after = Some (Lines (columns df :: records df))
      /\ read (Lines (columns df :: records df))
  | Ok None => cache_file w = None /\ kaggle = DownloadRaises /\ after = None
  | Raise ValueError => after = None /\ read (Lines [])
  | Raise UnicodeDecodeError => after = Some Undecodable /\ read Undecodable
  | Raise ParserError => after = Some Malformed /\ read Malformed
  | Raise FileNotFoundError =>
      cache_file w = None /\ kaggle = DownloadLeaves None /\ after = None
  | Raise _ => False
  end.
Proof.
  cbv zeta. rewrite extract_cases.
  destruct (cache_file w) as [file|] eqn:Ec.
  - rewrite try_read_csv_cases. cbn [cache_file].
    destruct file as [| |[|head rows]]; cbn; auto.
  - destruct kaggle as [|file]; [cbn; auto|].
    rewrite try_read_csv_cases. cbn [cache_file].
    destruct file as [[| |[|head rows]]|]; cbn; auto.
Qed.

(** X17. The events of one extraction: the download is attempted exactly when
    there is no cache file, and at most once; the cache file is deleted exactly
    when ValueError is raised, and the deletion is then the last event; a cache
    file that has a header line is left as it was. *)
Theorem extraction_events (kaggle : DownloadOutcome) (w : World) :
  let result := fst (_extract_records_from_file kaggle w) in
  let after := snd (_extract_records_from_file kaggle w) in
  exists events,
    trace after = (trace w ++ events)%list
    /\ (In Download events <-> cache_file w = None)
    /\ (count_occ event_eq_dec events Download <= 1)%nat
    /\ (In Unlink events <-> result = Raise ValueError)
    /\ (result = Raise ValueError -> exists before, events = (before ++ [Unlink])%list)
    /\ (forall head rows, cache_file w = Some (Lines (head :: rows)) ->
          cache_file after = Some (Lines (head :: rows))).
Proof.
  cbv zeta. rewrite extract_cases.
  destruct (cache_file w) as [file|] eqn:Ec;
    [rewrite try_read_csv_cases; cbn [cache_file trace];
     destruct file as [| |[|head rows]]
    | destruct kaggle as [|file];
      [| rewrite try_read_csv_cases; cbn [cache_file trace];
         destruct file as [[| |[|head rows]]|]]];
    cbn [fst snd trace cache_file]; rewrite <- ?app_assoc;
    eexists; (split; [reflexivity|]);
    (split; [cbn; split; intros H; try discriminate H; auto 10;
             repeat (destruct H as [H | H]; try discriminate H); destruct H |]);
    (split; [vm_compute; lia|]);
    (split; [cbn; split; intros H; try discriminate H; auto 10;
             repeat (destruct H as [H | H]; try discriminate H); destruct H |]);
    (split; [intros H; try discriminate H;
             first [ exists [LogInfo; ReadCsv]; reflexivity
                   | exists [LogInfo; Download; LogInfo; ReadCsv]; reflexivity ] |]);
    intros h r H; try discriminate H; exact H.
Qed.

Lemma index_of_Some name l : In name l -> exists i, index_of name l = Some i.
Proof.
  induction l as [|x l IH]; simpl; [tauto|].
  destruct (String.eqb x name) eqn:E; [eauto|].
  apply String.eqb_neq in E. intros [H | H]; [contradiction|].
  destruct (IH H) as (i & ->). simpl. eauto.
Qed.

Lemma index_of_None name l : ~ In name l -> index_of name l = None.
Proof.
  induction l as [|x l IH]; simpl; [reflexivity|].
  destruct (String.eqb x name) eqn:E.
  - apply String.eqb_eq in E. tauto.
  - intros H. rewrite IH by tauto. reflexivity.
Qed.

Lemma unique_length l :
  List.length (unique l) = List.length (nodup string_dec l)
  /\ (List.length (unique l) <= List.length l)%nat.
Proof.
  assert (Hp : Permutation (unique l) (nodup string_dec l)).
  { apply NoDup_Permutation; [apply unique_from_NoDup | apply NoDup_nodup |].
    intros x. unfold unique. rewrite unique_from_In, nodup_In. simpl. tauto. }
  split; [now apply Permutation_length|].
  apply NoDup_incl_length; [apply unique_from_NoDup|].
  intros x Hx. unfold unique in Hx. apply unique_from_In in Hx. tauto.
Qed.

(** X18. [from_file] adds no effect of its own to the extraction and hands on
    its errors; when the extraction returned None (the download raised) it
    raises TypeError instead of returning None; when the table has no
    InvoiceDate column it raises KeyError; otherwise it returns the table with
    the data path and the number of distinct InvoiceDate cells, which is at
    most the number of rows. *)
Theorem from_file_metadata (kaggle : DownloadOutcome) (path : string) (w : World) :
  let extracted := _extract_records_from_file kaggle w in
  snd (from_file kaggle path w) = snd extracted
  /\ (forall e, fst extracted = Raise e -> fst (from_file kaggle path w) = Raise e)
  /\ (fst extracted = Ok None -> fst (from_file kaggle path w) = Raise TypeError)
  /\ (forall df, fst extracted = Ok (Some df) ->
        (~ In "InvoiceDate" (columns df) ->
         fst (from_file kaggle path w) = Raise KeyError)
        /\ (In "InvoiceDate" (columns df) ->
            exists dates meta,
              column_values df "InvoiceDate" = Ok dates
              /\ fst (from_file kaggle path w) = Ok (df, meta)
              /\ data_path meta = path
              /\ num_unique_samples_per_time_series meta
                 = List.length (nodup string_dec dates)
              /\ (num_unique_samples_per_time_series meta
                  <= List.length (records df))%nat)).
Proof.
  cbv zeta. unfold from_file.
  destruct (_extract_records_from_file kaggle w) as [[[df|]|e] w']; cbn [fst snd].
  - split; [destruct (column_values df "InvoiceDate"); reflexivity|].
    split; [discriminate | split; [discriminate|]].
    intros df' E. injection E as <-. unfold column_values. split.
    + intros H. rewrite (index_of_None _ _ H). reflexivity.
    + intros H. destruct (index_of_Some _ _ H) as (i & ->). cbn [bind fst].
      eexists _, _. split; [reflexivity | split; [reflexivity | split; [reflexivity|]]].
      cbn [num_unique_samples_per_time_series].
      destruct (unique_length (map (fun r => nth i r EmptyString) (records df))) as [E1 E2].
      rewrite length_map in E2. auto.
  - repeat split; auto; discriminate.
  - repeat split; auto; try discriminate. intros e' E. congruence.
Qed.

End ExtractFacts.

(** ** Casting the dates, and the errors of the transform *)

Lemma to_datetime_cases s :
  let t := timestamp_of (dt_year s) (dt_month s) (dt_day s) (dt_hour s) (dt_minute s) in
  match to_datetime s with
  | Ok t' => t' = t /\ well_formed s = true /\ representable t = true
  | Raise e =>
      (e = ValueError /\ well_formed s = false)
      \/ (e = OutOfBoundsDatetime /\ well_formed s = true /\ representable t = false)
  end.
Proof.
  unfold to_datetime. destruct (well_formed s); [|auto].
  destruct (representable _); auto.
Qed.



Section CastFacts.

Context {P : Type}.

Lemma cast_columns_eq (data : list (Row DateText string P)) :
  cast_columns data = mapM cast_row data.
Proof. reflexivity. Qed.

Lemma cast_row_Ok (r : Row DateText string P) r' :
  cast_row r = Ok r' ->
  to_datetime (invoice_date r) = Ok (invoice_date r')
  /\ invoice_id r' = invoice_id r /\ total_price r' = total_price r
  /\ country r' = country r.
Proof.
  unfold cast_row. destruct (to_datetime (invoice_date r)) as [t|e]; [|discriminate].
  cbn. intros H. injection H as <-. auto.
Qed.

Lemma cast_row_Raise (r : Row DateText string P) e :
  cast_row r = Raise e -> to_datetime (invoice_date r) = Raise e.
Proof.
  unfold cast_row. destruct (to_datetime (invoice_date r)) as [t|e']; [discriminate|].
  cbn. congruence.
Qed.

Lemma cast_columns_Ok (data : list (Row DateText string P)) rows :
  cast_columns data = Ok rows ->
  map invoice_id rows = map invoice_id data
  /\ map total_price rows = map total_price data
  /\ map country rows = map country data
  /\ Forall2 (fun r r' => to_datetime (invoice_date r) = Ok (invoice_date r')) data rows.
Proof.
  rewrite cast_columns_eq. intros E. apply mapM_Ok_inv in E.
  induction E as [|a b l l' Hab _ IH]; [repeat split; constructor|].
  destruct IH as (I1 & I2 & I3 & I4).
  apply cast_row_Ok in Hab. destruct Hab as (Ht & Hi & Hp & Hc).
  cbn [map]. rewrite I1, I2, I3, Hi, Hp, Hc. repeat split; auto.
Qed.

Lemma cast_columns_error (data : list (Row DateText string P)) e :
  cast_columns data = Raise e -> e = ValueError \/ e = OutOfBoundsDatetime.
Proof.
  rewrite cast_columns_eq. intros E. apply mapM_Raise_inv in E.
  destruct E as (l1 & r & l2 & _ & Hr & _). apply cast_row_Raise in Hr.
  pose proof (to_datetime_cases (invoice_date r)) as H. cbv zeta in H.
  rewrite Hr in H. destruct H as [[-> _] | [-> _]]; auto.
Qed.

End CastFacts.


(** ** From the raw records to the table *)

Section TransformFacts.

Variable F : Float.Arithmetic.

Local Abbreviation num := (Float.num F).

(** A returned table has a row for each of the three codes, and each code is
    the code of an input row. *)
Lemma table_has_every_code (data : list (Row Timestamp Z num)) out c :
  aggregate_data F data = Ok out -> In c [0; 1; 2] ->
  (exists o, In o out /\ agg_country o = c) /\ (exists r, In r data /\ country r = c).
Proof.
  intros E Hc. rewrite aggregate_data_cases in E.
  destruct (some_partition_empty F data) eqn:Es; [discriminate|]. injection E as <-.
  pose proof (proj1 (some_partition_empty_false F data) Es c Hc) as Hk.
  split.
  - destruct (kept F data c) as [|a tl] eqn:Ek; [congruence|].
    assert (Hd : In (floor_day (fst a)) (bin_days (kept F data c))).
    { apply bin_days_In. exists a, a. rewrite Ek. simpl. repeat split; auto; lia. }
    assert (Hin : In (c, day_start (floor_day (fst a)))
                     (map out_key (add_id_from F 0
                        (country_rows F data 0 ++ country_rows F data 1
                         ++ country_rows F data 2)))).
    { rewrite table_keys, !in_app_iff, !country_days_In. simpl in Hc.
      destruct Hc as [<- | [<- | [<- | []]]]; [left | right; left | right; right]; eauto. }
    apply In_out_key in Hin. destruct Hin as (o & Ho & Hoc & _). eauto.
  - apply (series_nonempty F). intros Es'. apply Hk. unfold kept. now rewrite Es'.
Qed.

End TransformFacts.

(** X6. A returned table has at least one row for each of the country codes
    0, 1 and 2, and each of the three codes is carried by an input row: a table
    that lacks a country is never returned. *)
Theorem returned_table_has_every_code (F : Float.Arithmetic)
  (data : list (Row Timestamp Z (Float.num F))) :
  match aggregate_data F data with
  | Ok out =>
      forall c, In c [0; 1; 2] ->
        (exists o, In o out /\ agg_country o = c) /\ (exists r, In r data /\ country r = c)
  | Raise e => e = AttributeError
  end.
Proof.
  destruct (aggregate_data F data) as [out|e] eqn:E.
  - intros c Hc. now apply (table_has_every_code F data out c).
  - rewrite aggregate_data_cases in E.
    destruct (some_partition_empty F data); congruence.
Qed.

(** The names of the filtered rows when a row is encoded as 2: all three
    names of the allow-list occur. *)
Lemma three_names_occur (names : list string) x :
  incl names ["United Kingdom"; "France"; "Germany"]%string ->
  In x names -> to_int8 (first_seen_position x names) = 2 ->
  incl ["United Kingdom"; "France"; "Germany"]%string names.
Proof.
  intros Hincl Hx Hcode.
  pose proof (first_seen_position_bound x names Hx) as Hb.
  assert (Hn : (List.length (nodup string_dec names) <= 3)%nat).
  { change 3%nat with (List.length ["United Kingdom"; "France"; "Germany"]%string).
    apply NoDup_incl_length; [apply NoDup_nodup|].
    intros y Hy. apply nodup_In in Hy. now apply Hincl. }
  rewrite to_int8_small in Hcode by lia.
  assert (Hall : incl ["United Kingdom"; "France"; "Germany"]%string
                      (nodup string_dec names)).
  { apply NoDup_length_incl; [apply NoDup_nodup | simpl; lia |].
    intros y Hy. apply nodup_In in Hy. now apply Hincl. }
  intros y Hy. apply Hall in Hy. now apply nodup_In in Hy.
Qed.

Lemma transform_errors_aux (F : Float.Arithmetic) (df : list (RawRecord (Float.num F))) :
  match cast_columns (rename_columns df) with
  | Raise e =>
      transform F df = Raise e /\ (e = ValueError \/ e = OutOfBoundsDatetime)
  | Ok data =>
      exists rows,
        encode_country_column
          (filter_countries data ["United Kingdom"; "France"; "Germany"]%string) = Ok rows
        /\ transform F df = aggregate_data F rows
        /\ (transform F df = Raise AttributeError
            <-> exists c, In c [0; 1; 2] /\ kept F rows c = [])
        /\ ((exists out, transform F df = Ok out)
            <-> forall c, In c [0; 1; 2] -> kept F rows c <> [])
  end
  /\ (forall e, transform F df = Raise e ->
        e = ValueError \/ e = OutOfBoundsDatetime \/ e = AttributeError).
Proof.
  assert (Hmain :
    match cast_columns (rename_columns df) with
    | Raise e =>
        transform F df = Raise e /\ (e = ValueError \/ e = OutOfBoundsDatetime)
    | Ok data =>
        exists rows,
          encode_country_column
            (filter_countries data ["United Kingdom"; "France"; "Germany"]%string) = Ok rows
          /\ transform F df = aggregate_data F rows
          /\ (transform F df = Raise AttributeError
              <-> exists c, In c [0; 1; 2] /\ kept F rows c = [])
          /\ ((exists out, transform F df = Ok out)
              <-> forall c, In c [0; 1; 2] -> kept F rows c <> [])
    end).
  { unfold transform. destruct (cast_columns (rename_columns df)) as [data|e] eqn:E.
    - pose proof (encode_country_column_ok data
                    ["United Kingdom"; "France"; "Germany"]%string) as Eenc.
      cbv zeta in Eenc. eexists. split; [exact Eenc|]. cbn [bind]. rewrite Eenc. cbn [bind].
      split; [reflexivity|]. rewrite aggregate_data_cases.
      destruct (some_partition_empty F _) eqn:Es.
      + split; [split; [intros _; now apply some_partition_empty_true | reflexivity]|].
        split; [intros (out & H); discriminate|].
        intros H. apply some_partition_empty_false in H. congruence.
      + split; [split; [discriminate|]|].
        * intros H. apply some_partition_empty_true in H. congruence.
        * split; [intros _; now apply some_partition_empty_false | eauto].
    - cbn [bind]. split; [reflexivity | now apply cast_columns_error in E]. }
  split; [exact Hmain|].
  intros e He. destruct (cast_columns (rename_columns df)) as [data|e'] eqn:E.
  - destruct Hmain as (rows & _ & Ht & _). rewrite Ht, aggregate_data_cases in He.
    destruct (some_partition_empty F rows); [|discriminate].
    injection He as <-. auto.
  - destruct Hmain as [Ht He']. rewrite Ht in He. injection He as <-. tauto.
Qed.

(** X15. The errors of the transform of the pipeline. A date that does not
    match the format or cannot be stored makes it raise ValueError or
    OutOfBoundsDatetime, whatever the country of the record (the cast comes
    before the filter). Otherwise the encoding after the filter succeeds, and
    the transform is the aggregation of the encoded rows: it raises
    AttributeError exactly when one of the codes 0, 1, 2 is left without a value
    by the Outlier Filter, and returns a table otherwise. No other error is
    raised. *)
Theorem transform_errors (F : Float.Arithmetic) (df : list (RawRecord (Float.num F))) :
  match cast_columns (rename_columns df) with
  | Raise e =>
      transform F df = Raise e /\ (e = ValueError \/ e = OutOfBoundsDatetime)
  | Ok data =>
      exists rows,
        encode_country_column
          (filter_countries data ["United Kingdom"; "France"; "Germany"]%string) = Ok rows
        /\ transform F df = aggregate_data F rows
        /\ (transform F df = Raise AttributeError
            <-> exists c, In c [0; 1; 2] /\ kept F rows c = [])
        /\ ((exists out, transform F df = Ok out)
            <-> forall c, In c [0; 1; 2] -> kept F rows c <> [])
  end
  /\ (forall e, transform F df = Raise e ->
        e = ValueError \/ e = OutOfBoundsDatetime \/ e = AttributeError)
  /\ transform binary64 spec_example = Raise AttributeError
  /\ transform binary64 [record "inv1" (mkDateText 1 1 2300 0 0) 10%float "Spain"]
     = Raise OutOfBoundsDatetime
  /\ transform binary64 [record "inv1" (mkDateText 13 1 2011 0 0) 10%float "Spain"]
     = Raise ValueError.
Proof.
  destruct (transform_errors_aux F df) as [H1 H2].
  split; [exact H1 | split; [exact H2 | repeat split; vm_compute; reflexivity]].
Qed.

(** X21. The transform of the pipeline returns a table only when each of
    United Kingdom, France and Germany has a record: the table then has at least
    one row for each of the codes 0, 1 and 2. When one of the three countries
    has no record, the transform raises (AttributeError, unless a date already
    made the cast fail). *)
Theorem transform_needs_all_three_countries (F : Float.Arithmetic)
  (df : list (RawRecord (Float.num F))) :
  match transform F df with
  | Ok out =>
      (forall name, In name ["United Kingdom"; "France"; "Germany"]%string ->
                    exists r, In r df /\ Country r = name)
      /\ (forall c, In c [0; 1; 2] -> exists o, In o out /\ agg_country o = c)
  | Raise e => e = ValueError \/ e = OutOfBoundsDatetime \/ e = AttributeError
  end.
Proof.
  destruct (transform F df) as [out|e] eqn:E;
    [|now apply (proj2 (transform_errors_aux F df))].
  unfold transform in E.
  destruct (cast_columns (rename_columns df)) as [data|e] eqn:Ec; [|discriminate].
  cbn [bind] in E.
  pose proof (encode_country_column_ok data
                ["United Kingdom"; "France"; "Germany"]%string) as Eenc.
  cbv zeta in Eenc. rewrite Eenc in E. cbn [bind] in E.
  set (s := filter_countries data ["United Kingdom"; "France"; "Germany"]%string) in *.
  set (names := map country (f_data s)) in *.
  split.
  - destruct (table_has_every_code F _ out 2 E) as [_ (r' & Hr' & Hc)];
      [simpl; tauto|].
    apply in_map_iff in Hr'. destruct Hr' as (r & <- & Hr). cbn [encoded country] in Hc.
    assert (Hall : incl ["United Kingdom"; "France"; "Germany"]%string names).
    { apply (three_names_occur names (country r)); auto.
      - intros y Hy. now apply filtered_names_allowed in Hy.
      - now apply in_map. }
    intros name Hname. apply Hall in Hname. unfold names in Hname.
    apply in_map_iff in Hname. destruct Hname as (r0 & <- & Hr0).
    unfold s in Hr0. cbn [filter_countries f_data] in Hr0. apply filter_In in Hr0.
    destruct Hr0 as [Hr0 _].
    destruct (cast_columns_Ok _ _ Ec) as (_ & _ & I3 & _).
    assert (Hin : In (country r0) (map country data)) by now apply in_map.
    rewrite I3 in Hin. unfold rename_columns in Hin. rewrite map_map in Hin.
    cbn [country] in Hin. apply in_map_iff in Hin. destruct Hin as (r1 & H1 & H2). eauto.
  - intros c Hc. now destruct (table_has_every_code F _ out c E Hc).
Qed.
